(** * CSV-to-JSON converter: a shallow embedding of [converter.py]

    Definitions come first, in the order of the source file:
    - [Py]: the Python built-ins the converter calls ([str.strip],
      [str.startswith], [str.endswith], slicing, [str.replace],
      [enumerate], [zip], [dict], [json.dumps]);
    - [Converter]: [normalize_value] and [parse_line] as pure functions,
      then the two file objects and the methods of [BaseConverter] and
      [CsvToJsonConverter] in a state-and-exception monad;
    - [NormalizeSpec], [LineSpec]: the parser as the specification words
      it, against which the code is compared;
    - the record of a data line, the notions used to state the framing of
      the document, and sample inputs.
    The lemmas and theorems follow, one section per part of the converter.

    A Python [str] is a sequence of Unicode code points: a [list N]. *)

From Stdlib Require Import String Ascii.
From Stdlib Require Import List ZArith NArith Bool Lia Arith.
Import ListNotations.

Set Implicit Arguments.

(** ** Characters and strings *)

Definition char := N.
Definition str := list char.

Definition dq : char := 34%N.        (* the double-quote character *)
Definition comma : char := 44%N.
Definition nl : char := 10%N.        (* '\n' *)
Definition space : char := 32%N.
Definition backslash : char := 92%N.

(** [lit] reads an ASCII literal as a Python string. *)
Fixpoint lit (s : string) : str :=
  match s with
  | EmptyString => []
  | String a s' => N_of_ascii a :: lit s'
  end.
Arguments lit _%_string.

Definition str_eq_dec : forall a b : str, {a = b} + {a <> b} :=
  list_eq_dec N.eq_dec.

Definition str_eqb (a b : str) : bool :=
  if str_eq_dec a b then true else false.

(** ** Python built-ins *)

Module Py.

(** [str.isspace] on one code point, as [str.strip()] without argument uses
    it: the ASCII table [_Py_ascii_whitespace] and, above it,
    [_PyUnicode_IsWhitespace]. *)
Definition isspace (c : char) : bool :=
  ((9 <=? c) && (c <=? 13) || (28 <=? c) && (c <=? 32)
   || (c =? 133) || (c =? 160) || (c =? 5760)
   || (8192 <=? c) && (c <=? 8202)
   || (c =? 8232) || (c =? 8233) || (c =? 8239) || (c =? 8287)
   || (c =? 12288))%N.

Fixpoint lstrip (s : str) : str :=
  match s with
  | c :: t => if isspace c then lstrip t else s
  | [] => []
  end.

Definition rstrip (s : str) : str := rev (lstrip (rev s)).

(** [s.strip()] *)
Definition strip (s : str) : str := rstrip (lstrip s).

(** [s.startswith(p)] *)
Fixpoint startswith (s p : str) : bool :=
  match p, s with
  | [], _ => true
  | _ :: _, [] => false
  | a :: p', b :: s' => (a =? b)%N && startswith s' p'
  end.

(** [s.endswith(p)] *)
Definition endswith (s p : str) : bool := startswith (rev s) (rev p).

(** A slice bound [i] of a sequence of length [len]: a negative bound counts
    from the end, and the result is clamped to [0 .. len]. *)
Definition bound (len : Z) (i : Z) : Z :=
  let i := if (i <? 0)%Z then (i + len)%Z else i in
  Z.max 0 (Z.min len i).

(** [s[start:stop]]; [None] is an omitted bound. *)
Definition slice {A} (s : list A) (start stop : option Z) : list A :=
  let len := Z.of_nat (length s) in
  let lo := match start with Some i => bound len i | None => 0%Z end in
  let hi := match stop with Some j => bound len j | None => len end in
  firstn (Z.to_nat (hi - lo)) (skipn (Z.to_nat lo) s).

(** [s.replace(old, new)] for a non-empty [old]: occurrences are found left
    to right and do not overlap.  [skip] counts the characters of a match
    still to be passed over. *)
Fixpoint replace_from (old new s : str) (skip : nat) : str :=
  match s with
  | [] => []
  | c :: t =>
      match skip with
      | S k => replace_from old new t k
      | O => if startswith s old
             then new ++ replace_from old new t (length old - 1)
             else c :: replace_from old new t 0
      end
  end.

Definition replace (s old new : str) : str := replace_from old new s 0.

(** [enumerate(s)] *)
Fixpoint enumerate_from {A} (i : Z) (s : list A) : list (Z * A) :=
  match s with
  | [] => []
  | c :: t => (i, c) :: enumerate_from (i + 1) t
  end.

Definition enumerate {A} (s : list A) : list (Z * A) := enumerate_from 0 s.

(** [zip(a, b)]: stops at the end of the shorter argument. *)
Definition zip {A B} (a : list A) (b : list B) : list (A * B) := combine a b.

(** A [dict] from [str] to [str].  A Python dict keeps its keys in the order
    of their first insertion and [json.dumps] writes them in that order, so
    the model is an association list with unique keys. *)
Definition dict := list (str * str).

(** [d[k] = v]: an existing key keeps its place and takes the new value. *)
Fixpoint setitem (d : dict) (k v : str) : dict :=
  match d with
  | [] => [(k, v)]
  | (k', v') :: r =>
      if str_eqb k' k then (k', v) :: r else (k', v') :: setitem r k v
  end.

(** [d.get(k)] *)
Fixpoint get (d : dict) (k : str) : option str :=
  match d with
  | [] => None
  | (k', v') :: r => if str_eqb k' k then Some v' else get r k
  end.

(** [dict(pairs)]: the pairs are inserted from left to right. *)
Definition dict_of (pairs : list (str * str)) : dict :=
  fold_left (fun d kv => setitem d (fst kv) (snd kv)) pairs [].

(** [sep.join(parts)] *)
Fixpoint join (sep : str) (parts : list str) : str :=
  match parts with
  | [] => []
  | p :: rest =>
      match rest with
      | [] => p
      | _ :: _ => p ++ sep ++ join sep rest
      end
  end.

(** ['{0:04x}'.format(n)] for [n < 0x10000]. *)
Definition hexdigit (n : N) : char :=
  if (n <? 10)%N then (48 + n)%N else (87 + n)%N.

Definition hex4 (n : N) : str :=
  [hexdigit (n / 4096 mod 16); hexdigit (n / 256 mod 16);
   hexdigit (n / 16 mod 16); hexdigit (n mod 16)]%N.

Definition u_escape (n : N) : str := lit "\u" ++ hex4 n.

(** The replacement of one character in [json.encoder]'s
    [py_encode_basestring_ascii] ([ensure_ascii] is on by default). *)
Definition escape_char (c : char) : str :=
  if (c =? backslash)%N then [backslash; backslash]
  else if (c =? dq)%N then [backslash; dq]
  else if (c =? 8)%N then lit "\b"
  else if (c =? 12)%N then lit "\f"
  else if (c =? 10)%N then lit "\n"
  else if (c =? 13)%N then lit "\r"
  else if (c =? 9)%N then lit "\t"
  else if (32 <=? c)%N && (c <=? 126)%N then [c]
  else if (c <? 65536)%N then u_escape c
  else
    let n := (c - 65536)%N in
    u_escape (N.lor 55296 (N.land (N.shiftr n 10) 1023))
    ++ u_escape (N.lor 56320 (N.land n 1023)).

Definition encode_basestring_ascii (s : str) : str :=
  [dq] ++ flat_map escape_char s ++ [dq].

(** [json.dumps(d)] for a [dict] of strings, with the default separators. *)
Definition json_dumps (d : dict) : str :=
  lit "{"
  ++ join (lit ", ")
       (map (fun kv => encode_basestring_ascii (fst kv) ++ lit ": "
                       ++ encode_basestring_ascii (snd kv)) d)
  ++ lit "}".

End Py.

(** ** The converter: pure part *)

Module Converter.

Definition Line := list str.

(** [CsvToJsonConverter.normalize_value] *)
Definition normalize_value (value : str) : str :=
  (* remove whitespaces *)
  let value := Py.strip value in
  (* remove quotes *)
  let value :=
    if Py.startswith value [dq] && Py.endswith value [dq]
    then Py.slice value (Some 1%Z) (Some (-1)%Z)
    else value in
  (* unescape inner quotes *)
  Py.replace value [dq; dq] [dq].

(** The local variables of the scanning loop of [parse_line]. *)
Record scan := mkScan
  { parsed_line : Line; start_index : Z; quotes_number : Z }.

(** One iteration of [for index, char in enumerate(line)]. *)
Definition scan_step (line : str) (st : scan) (ic : Z * char) : scan :=
  let (index, c) := ic in
  if (c =? comma)%N && (quotes_number st mod 2 =? 0)%Z then
    let value := Py.slice line (Some (start_index st)) (Some index) in
    let value := normalize_value value in
    mkScan (parsed_line st ++ [value]) (index + 1) (quotes_number st)
  else if (c =? dq)%N then
    mkScan (parsed_line st) (start_index st) (quotes_number st + 1)
  else st.

(** [CsvToJsonConverter.parse_line] *)
Definition parse_line (line : str) : Line :=
  let line :=
    if Py.endswith line [nl] then Py.slice line None (Some (-1)%Z) else line in
  let st := fold_left (scan_step line) (Py.enumerate line) (mkScan [] 0 0) in
  let last_value := Py.slice line (Some (start_index st)) None in
  let last_value := normalize_value last_value in
  parsed_line st ++ [last_value].

(** ** The converter: files and methods *)

(** What a call can raise. [ValueError]: an operation on a closed file or a
    negative seek position; [OSError]: the device refuses a write. *)
Inductive exn := ValueError | OSError.

(** The outcome of a call.  [Exhausted] is the loop of [for_source_file_lines]
    running out of its iteration budget; [convert_data_within_budget] shows
    that it never happens. *)
Inductive outcome (A : Type) :=
| Returned (a : A)
| Raised (e : exn)
| Exhausted.
Arguments Returned {A} a.
Arguments Raised {A} e.
Arguments Exhausted {A}.

(** [self.source_file], opened for reading in text mode: the decoded text
    not read yet, line ends already translated to ['\n']. *)
Record source := mkSource { pending : str; src_closed : bool }.

(** [self.dest_file], opened for writing in text mode.  Everything the
    converter writes is ASCII, so a character is a byte and [tell] is an
    offset into [content].  [capacity] is the room on the device ([None]:
    unlimited); a write that would grow the file beyond it raises
    [OSError].  The file is modelled without a buffer: the refusal is
    reported by the call of [write] that meets it.  The file object of
    [open] buffers, so there the refusal can come from a later call and
    with part of a write on the device: with a limit the model says that
    a conversion can raise, not which call of the real file raises or
    what it has written by then. *)
Record sink := mkSink
  { content : str; position : Z; capacity : option nat; dst_closed : bool }.

(** The converter object. *)
Record converter := mkConverter { source_file : source; dest_file : sink }.

Definition M (A : Type) := converter -> outcome A * converter.

Definition ret {A} (a : A) : M A := fun self => (Returned a, self).
Definition raise {A} (e : exn) : M A := fun self => (Raised e, self).
Definition bind {A B} (m : M A) (k : A -> M B) : M B :=
  fun self =>
    match m self with
    | (Returned a, self') => k a self'
    | (Raised e, self') => (Raised e, self')
    | (Exhausted, self') => (Exhausted, self')
    end.

Notation "x <- m ;; k" := (bind m (fun x => k))
  (at level 100, m at next level, right associativity).
Notation "m ;; k" := (bind m (fun _ => k))
  (at level 100, right associativity).

(** [self.source_file.readline()]: the text up to and including the next
    newline, or everything left when there is none; [''] at the end. *)
Fixpoint take_line (s : str) : str * str :=
  match s with
  | [] => ([], [])
  | c :: t =>
      if (c =? nl)%N then ([c], t)
      else let (l, r) := take_line t in (c :: l, r)
  end.

Definition readline : M str := fun self =>
  let f := source_file self in
  if src_closed f then raise ValueError self
  else
    let (l, r) := take_line (pending f) in
    (Returned l, mkConverter (mkSource r false) (dest_file self)).

(** [self.dest_file.write(data)]: overwrites from the current position and
    extends the file; a position beyond the end is padded with zeros. *)
Definition write_at (c : str) (pos : nat) (data : str) : str :=
  firstn pos c ++ repeat 0%N (pos - length c) ++ data
  ++ skipn (pos + length data) c.

Definition write (data : str) : M unit := fun self =>
  let f := dest_file self in
  if dst_closed f then raise ValueError self
  else
    let c := write_at (content f) (Z.to_nat (position f)) data in
    let fits :=
      match capacity f with
      | Some cap => (length c <=? cap)%nat
      | None => true
      end in
    if fits
    then (Returned tt,
          mkConverter (source_file self)
            (mkSink c (position f + Z.of_nat (length data)) (capacity f)
               false))
    else raise OSError self.

(** [self.dest_file.seek(0, os.SEEK_END)] *)
Definition seek_end : M unit := fun self =>
  let f := dest_file self in
  if dst_closed f then raise ValueError self
  else (Returned tt,
        mkConverter (source_file self)
          (mkSink (content f) (Z.of_nat (length (content f))) (capacity f)
             false)).

(** [self.dest_file.tell()] *)
Definition tell : M Z := fun self =>
  let f := dest_file self in
  if dst_closed f then raise ValueError self
  else (Returned (position f), self).

(** [self.dest_file.seek(offset, os.SEEK_SET)] *)
Definition seek_set (offset : Z) : M unit := fun self =>
  let f := dest_file self in
  if dst_closed f then raise ValueError self
  else if (offset <? 0)%Z then raise ValueError self
  else (Returned tt,
        mkConverter (source_file self)
          (mkSink (content f) offset (capacity f) false)).

(** [BaseConverter._close_files] *)
Definition _close_files : M unit := fun self =>
  let s := source_file self in
  let d := dest_file self in
  (Returned tt,
   mkConverter (mkSource (pending s) true)
     (mkSink (content d) (position d) (capacity d) true)).

Definition json_file_header : str :=
  lit "{" ++ [dq] ++ lit "data" ++ [dq] ++ lit ": [".
Definition json_file_footer : str := lit "]}".

(** [CsvToJsonConverter._write_json_file_header] *)
Definition _write_json_file_header : M unit := write json_file_header.

(** [CsvToJsonConverter._write_json_file_footer] *)
Definition _write_json_file_footer : M unit :=
  (* removing trailing comma in the end of file *)
  seek_end ;;
  pos <- tell ;;
  seek_set (pos - 2) ;;
  (* writing footer *)
  write json_file_footer.

(** [CsvToJsonConverter.get_csv_headers] *)
Definition get_csv_headers : M Line :=
  line <- readline ;;
  ret (parse_line line).

(** [CsvToJsonConverter.write_json_data] *)
Definition write_json_data (headers line : Line) : M unit :=
  let data := Py.dict_of (Py.zip headers line) in
  let data := Py.json_dumps data ++ lit ", " in
  write data.

(** [for line in self.source_file_lines(): body(line)].  The generator reads
    a line, stops at the empty read and yields the line otherwise; [budget]
    bounds the number of reads. *)
Fixpoint for_source_file_lines (budget : nat) (body : str -> M unit)
  : M unit :=
  match budget with
  | O => fun self => (Exhausted, self)
  | S budget' =>
      line <- readline ;;
      match line with
      | [] => ret tt
      | _ :: _ => body line ;; for_source_file_lines budget' body
      end
  end.

(** Every read but the last takes at least one character, so one read more
    than there are characters left is enough. *)
Definition reads_left : M nat := fun self =>
  (Returned (S (length (pending (source_file self)))), self).

(** [CsvToJsonConverter._convert_data] *)
Definition _convert_data : M unit :=
  _write_json_file_header ;;
  headers <- get_csv_headers ;;
  budget <- reads_left ;;
  (for_source_file_lines budget (fun line =>
     let parsed_line := parse_line line in
     write_json_data headers parsed_line)) ;;
  _write_json_file_footer.

(** [BaseConverter.convert] *)
Definition convert : M unit :=
  _convert_data ;;
  _close_files.

(** [CsvToJsonConverter(source_file_name, dest_file_name)]: the source file
    holds [text]; the destination is created empty. *)
Definition open_files (text : str) (cap : option nat) : converter :=
  mkConverter (mkSource text false) (mkSink [] 0 cap false).

End Converter.

Import Converter.

(** ** The parser as the specification describes it *)

Module NormalizeSpec.

(** (a) strip leading and trailing whitespace. *)
Definition trim (v : str) : str := Py.strip v.

(** (b) if the value both starts and ends with a double quote, remove one
    leading and one trailing quote. *)
Definition unquote (v : str) : str :=
  match v with
  | [] => []
  | c :: t => if (c =? dq)%N && (last v 0 =? dq)%N then removelast t else v
  end.

(** (c) replace every two consecutive double quotes by one. *)
Fixpoint unescape (v : str) : str :=
  match v with
  | [] => []
  | c :: t =>
      match t with
      | [] => [c]
      | c' :: t' =>
          if (c =? dq)%N && (c' =? dq)%N then dq :: unescape t'
          else c :: unescape t
      end
  end.

(** A value on which normalization has nothing left to do. *)
Record normalized (v : str) : Prop := mkNormalized
  { no_leading_space : forall c, hd_error v = Some c -> Py.isspace c = false;
    no_trailing_space :
      forall c, hd_error (rev v) = Some c -> Py.isspace c = false;
    not_quoted : ~ (hd_error v = Some dq /\ hd_error (rev v) = Some dq);
    no_doubled_quote : forall a b, v <> a ++ [dq; dq] ++ b }.

(** The same as a test. *)
Fixpoint has_doubled_quote (v : str) : bool :=
  match v with
  | [] => false
  | c :: t =>
      match t with
      | [] => false
      | c' :: _ => (c =? dq)%N && (c' =? dq)%N || has_doubled_quote t
      end
  end.

Definition space_at_head (v : str) : bool :=
  match v with c :: _ => Py.isspace c | [] => false end.

Definition is_normalized (v : str) : bool :=
  negb (space_at_head v) && negb (space_at_head (rev v))
  && negb (Py.startswith v [dq] && Py.endswith v [dq])
  && negb (has_doubled_quote v).

End NormalizeSpec.

Module LineSpec.

(** Step 1: one trailing newline, if present, is removed. *)
Definition chomp (s : str) : str :=
  match rev s with
  | c :: r => if (c =? nl)%N then rev r else s
  | [] => s
  end.

(** The number of double quotes before index [i]. *)
Definition quotes_before (line : str) (i : nat) : nat :=
  count_occ N.eq_dec (firstn i line) dq.

(** Step 3: index [i] holds a comma and the quote count there is even. *)
Definition is_separator (line : str) (i : nat) : bool :=
  match nth_error line i with
  | Some c => (c =? comma)%N && Nat.even (quotes_before line i)
  | None => false
  end.

Definition separators (line : str) : list nat :=
  filter (is_separator line) (seq 0 (length line)).

(** Steps 4 and 6: the pieces of [line] between consecutive separators,
    starting at index [start]. *)
Fixpoint fields (line : str) (start : nat) (seps : list nat) : list str :=
  match seps with
  | [] => [skipn start line]
  | i :: rest => firstn (i - start) (skipn start line) :: fields line (S i) rest
  end.

Definition split_line (line : str) : list str :=
  fields line 0 (separators line).

End LineSpec.

(** ** Records *)

(** [dict(zip(headers, line))], the record of [write_json_data]. *)
Definition record_of (headers line : Line) : Py.dict :=
  Py.dict_of (Py.zip headers line).

Definition keys (d : Py.dict) : list str := map fst d.

Definition put (d : Py.dict) (kv : str * str) : Py.dict :=
  Py.setitem d (fst kv) (snd kv).

(** ** The conversion: auxiliary notions *)

(** A converter whose files are open, with the destination positioned at
    its end and no limit on its size. *)
Definition running (text : str) (c : str) : converter :=
  mkConverter (mkSource text false)
    (mkSink c (Z.of_nat (length c)) None false).

(** The object written for one data line. *)
Definition json_object (headers : Line) (line : str) : str :=
  Py.json_dumps (record_of headers (parse_line line)).

Definition convert_line (headers : Line) (line : str) : M unit :=
  let parsed_line := parse_line line in
  write_json_data headers parsed_line.

(** [_convert_data] up to the call of [_write_json_file_footer]. *)
Definition before_footer : M unit :=
  _write_json_file_header ;;
  headers <- get_csv_headers ;;
  budget <- reads_left ;;
  for_source_file_lines budget (convert_line headers).

(** A line as [readline] returns it: not empty, with no newline except
    possibly as its last character. *)
Definition is_line (l : str) : bool :=
  match rev l with
  | [] => false
  | _ :: r => forallb (fun c => negb (c =? nl)%N) r
  end.

(** The lines of a text: every line but the last ends with a newline. *)
Fixpoint lines_ok (ls : list str) : bool :=
  match ls with
  | [] => true
  | l :: rest =>
      is_line l
      && match rest with
         | [] => true
         | _ :: _ => Py.endswith l [nl] && lines_ok rest
         end
  end.

Definition flags (self : converter) : bool * bool :=
  (src_closed (source_file self), dst_closed (dest_file self)).

(** A computation that neither opens nor closes a file. *)
Definition keeps_flags {A} (m : M A) : Prop :=
  forall self, flags (snd (m self)) = flags self.

(** A computation that leaves the source file alone. *)
Definition keeps_source {A} (m : M A) : Prop :=
  forall self, source_file (snd (m self)) = source_file self.

(** A computation that stays within its iteration budget. *)
Definition halts {A} (m : M A) : Prop :=
  forall self, fst (m self) <> Exhausted.

(** ** Sample inputs *)

Definition say_hi : str := lit "say " ++ [dq] ++ lit "hi" ++ [dq] ++ lit "!".

(** The quoted field of the round-trip property. *)
Definition quoted_example : str :=
  [dq] ++ lit "value with " ++ [dq; dq] ++ lit "quotes" ++ [dq; dq]
  ++ lit " and, comma" ++ [dq].

Definition quoted_example_value : str :=
  lit "value with " ++ [dq] ++ lit "quotes" ++ [dq] ++ lit " and, comma".

Definition name_age : Line := parse_line (lit "name,age" ++ [nl]).
Definition alice : Line := parse_line (lit "Alice" ++ [nl]).
Definition alice_object : str :=
  lit "{" ++ [dq] ++ lit "name" ++ [dq] ++ lit ": "
  ++ [dq] ++ lit "Alice" ++ [dq] ++ lit "}".

Definition dup_headers : Line := [lit "a"; lit "b"; lit "a"].
Definition short_line : Line := [lit "x"].

Definition corrupt_document : str :=
  lit "{" ++ [dq] ++ lit "data" ++ [dq] ++ lit ":]}".

Definition empty_document : str := json_file_header ++ json_file_footer.

Definition header_only : str := lit "name,age" ++ [nl].

(** The scenario of the specification. *)
Definition scenario : list str :=
  [lit "name,age" ++ [nl]; lit "Alice,30" ++ [nl];
   [dq] ++ lit "Bob, Jr." ++ [dq] ++ lit ",25" ++ [nl]].

Definition scenario_document : str :=
  json_file_header
  ++ lit "{" ++ [dq] ++ lit "name" ++ [dq] ++ lit ": " ++ [dq] ++ lit "Alice"
  ++ [dq] ++ lit ", " ++ [dq] ++ lit "age" ++ [dq] ++ lit ": " ++ [dq]
  ++ lit "30" ++ [dq] ++ lit "}, "
  ++ lit "{" ++ [dq] ++ lit "name" ++ [dq] ++ lit ": " ++ [dq]
  ++ lit "Bob, Jr." ++ [dq] ++ lit ", " ++ [dq] ++ lit "age" ++ [dq]
  ++ lit ": " ++ [dq] ++ lit "25" ++ [dq] ++ lit "}"
  ++ json_file_footer.

(** A sink with room for twelve bytes: the opening fragment fits, the
    first record does not. *)
Definition small_device : converter :=
  open_files (lit "a" ++ [nl] ++ lit "b" ++ [nl]) (Some 12).

(** ** Notions for the further properties *)

(** The writer's side of the quoting convention that [parse_line] reads:
    every double quote of the value is doubled and the result is put
    between double quotes. *)
Definition double_quotes (v : str) : str :=
  flat_map (fun c => if (c =? dq)%N then [dq; dq] else [c]) v.

Definition quote_field (v : str) : str :=
  [dq] ++ Py.replace v [dq] [dq; dq] ++ [dq].

(** The scan of [parse_line] as a machine over the characters: [odd] is
    the parity of the quotes seen, [cur] the field being read, last
    character first. *)
Fixpoint split_from (odd : bool) (cur : str) (s : str) : list str :=
  match s with
  | [] => [rev cur]
  | c :: t =>
      if (c =? comma)%N && negb odd then rev cur :: split_from odd [] t
      else split_from (if (c =? dq)%N then negb odd else odd) (c :: cur) t
  end.

(** The lines of a text, each with its newline ([str.splitlines] with
    [keepends], for the one line end ['\n']). *)
Fixpoint split_lines (s : str) : list str :=
  match s with
  | [] => []
  | c :: t =>
      if (c =? nl)%N then [c] :: split_lines t
      else match split_lines t with
           | [] => [[c]]
           | l :: ls => (c :: l) :: ls
           end
  end.

(** The printable ASCII characters. *)
Definition printable (c : char) : bool := ((32 <=? c) && (c <=? 126))%N.

(** The number of characters of a list of fields. *)
Definition total_length (fs : list str) : nat := list_sum (map (@length char) fs).


(** A property of the converter that a computation keeps, whatever its
    outcome. *)
Definition preserves {A} (P : converter -> Prop) (m : M A) : Prop :=
  forall self, P self -> P (snd (m self)).

(** The destination holds printable ASCII only and its position is within
    the file. *)
Definition ascii_ok (self : converter) : Prop :=
  forallb printable (content (dest_file self)) = true
  /\ (0 <= position (dest_file self)
      <= Z.of_nat (length (content (dest_file self))))%Z.

(** ** Lemmas on the built-ins *)

Section PyFacts.

Lemma str_eqb_eq (a b : str) : str_eqb a b = true <-> a = b.
Proof.
  unfold str_eqb. destruct (str_eq_dec a b); split; congruence.
Qed.

Lemma str_eqb_refl (a : str) : str_eqb a a = true.
Proof. now apply str_eqb_eq. Qed.

Lemma str_eqb_neq (a b : str) : str_eqb a b = false <-> a <> b.
Proof.
  unfold str_eqb. destruct (str_eq_dec a b); split; congruence.
Qed.

Lemma startswith_1 (s : str) (c : char) :
  Py.startswith s [c] = true <-> hd_error s = Some c.
Proof.
  destruct s as [|b t]; simpl.
  - split; discriminate.
  - destruct t; simpl; rewrite andb_true_r, N.eqb_eq; split; congruence.
Qed.

Lemma endswith_1 (s : str) (c : char) :
  Py.endswith s [c] = true <-> hd_error (rev s) = Some c.
Proof. unfold Py.endswith. simpl rev. apply startswith_1. Qed.

Lemma hd_error_rev_last (s : str) (c : char) :
  hd_error (rev s) = Some c <-> exists r, s = r ++ [c].
Proof.
  split.
  - intros H. destruct (rev s) as [|b r] eqn:E; [discriminate|].
    injection H as ->. exists (rev r).
    rewrite <- (rev_involutive s), E. reflexivity.
  - intros [r ->]. rewrite rev_app_distr. reflexivity.
Qed.

Lemma bound_nonneg (len i : Z) :
  (0 <= i <= len)%Z -> Py.bound len i = i.
Proof.
  intros H. unfold Py.bound.
  destruct (i <? 0)%Z eqn:E; [apply Z.ltb_lt in E; lia | lia].
Qed.

Lemma bound_minus_one (len : Z) :
  (0 <= len)%Z -> Py.bound len (-1) = Z.max 0 (len - 1).
Proof.
  intros H. unfold Py.bound. change (-1 <? 0)%Z with true. cbv iota zeta. lia.
Qed.

(** [s[a:b]] for [0 <= a <= b <= len(s)]. *)
Lemma slice_between {A} (s : list A) (a b : nat) :
  a <= b <= length s ->
  Py.slice s (Some (Z.of_nat a)) (Some (Z.of_nat b))
  = firstn (b - a) (skipn a s).
Proof.
  intros H. unfold Py.slice; cbv zeta.
  rewrite !bound_nonneg by lia.
  rewrite <- Nat2Z.inj_sub, !Nat2Z.id by lia. reflexivity.
Qed.

(** [s[a:]] for [0 <= a <= len(s)]. *)
Lemma slice_from {A} (s : list A) (a : nat) :
  a <= length s ->
  Py.slice s (Some (Z.of_nat a)) None = skipn a s.
Proof.
  intros H. unfold Py.slice; cbv zeta.
  rewrite bound_nonneg by lia.
  rewrite <- Nat2Z.inj_sub, !Nat2Z.id by lia.
  apply firstn_all2. rewrite length_skipn. lia.
Qed.

(** [s[:-1]] drops the last element. *)
Lemma slice_drop_last {A} (s : list A) (c : A) :
  Py.slice (s ++ [c]) None (Some (-1)%Z) = s.
Proof.
  unfold Py.slice; cbv zeta. rewrite bound_minus_one by lia.
  rewrite length_app. simpl length. simpl skipn.
  replace (Z.to_nat (Z.max 0 (Z.of_nat (length s + 1) - 1) - 0))
    with (length s) by lia.
  rewrite firstn_app, Nat.sub_diag, firstn_all. simpl. apply app_nil_r.
Qed.

(** [s[1:-1]] drops the first and the last element. *)
Lemma slice_inner {A} (c : A) (s : list A) :
  Py.slice (c :: s) (Some 1%Z) (Some (-1)%Z) = removelast s.
Proof.
  unfold Py.slice; cbv zeta. rewrite bound_minus_one by lia.
  simpl length. rewrite bound_nonneg by lia.
  change (Z.to_nat 1) with 1. simpl skipn.
  replace (Z.to_nat (Z.max 0 (Z.of_nat (S (length s)) - 1) - 1))
    with (length s - 1) by lia.
  destruct s as [|x s] using rev_ind.
  - reflexivity.
  - rewrite removelast_last, length_app. simpl length.
    replace (length s + 1 - 1) with (length s) by lia.
    rewrite firstn_app, Nat.sub_diag, firstn_all. simpl. apply app_nil_r.
Qed.

Lemma replace_from_skip (old new : str) (c : char) (s : str) (k : nat) :
  Py.replace_from old new (c :: s) (S k) = Py.replace_from old new s k.
Proof. reflexivity. Qed.

Lemma replace_from_here (old new : str) (c : char) (s : str) :
  Py.replace_from old new (c :: s) 0
  = if Py.startswith (c :: s) old
    then new ++ Py.replace_from old new s (length old - 1)
    else c :: Py.replace_from old new s 0.
Proof. reflexivity. Qed.

Lemma startswith_2 (a b : char) (s : str) :
  Py.startswith (a :: b :: s) [dq; dq] = (a =? dq)%N && (b =? dq)%N.
Proof.
  cbn [Py.startswith]. rewrite (N.eqb_sym dq a), (N.eqb_sym dq b).
  destruct s; cbn [Py.startswith]; now rewrite andb_true_r.
Qed.

Lemma unescape_cons2 (c c' : char) (t : str) :
  NormalizeSpec.unescape (c :: c' :: t)
  = if (c =? dq)%N && (c' =? dq)%N then dq :: NormalizeSpec.unescape t
    else c :: NormalizeSpec.unescape (c' :: t).
Proof. reflexivity. Qed.

(** The call of [replace] in [normalize_value] is the unescaping of the
    specification. *)
Lemma replace_unescape (v : str) :
  Py.replace v [dq; dq] [dq] = NormalizeSpec.unescape v.
Proof.
  unfold Py.replace.
  enough (H : forall n v, length v <= n ->
            Py.replace_from [dq; dq] [dq] v 0 = NormalizeSpec.unescape v)
    by (apply (H (length v)); lia).
  induction n as [|n IH]; intros [|c [|c' t]] Hn; simpl in Hn; try lia;
    try reflexivity.
  - cbn [Py.replace_from Py.startswith]. rewrite andb_false_r. reflexivity.
  - rewrite replace_from_here, startswith_2, unescape_cons2.
    destruct ((c =? dq)%N && (c' =? dq)%N).
    + change (length [dq; dq] - 1) with 1.
      rewrite replace_from_skip, IH by lia. reflexivity.
    + rewrite IH by (simpl; lia). reflexivity.
Qed.

End PyFacts.

(** ** Normalization *)

Section Normalize.

Import NormalizeSpec.

Lemma endswith_last (c : char) (t : str) (d : char) :
  Py.endswith (c :: t) [d] = (last (c :: t) 0 =? d)%N.
Proof.
  destruct (exists_last (l := c :: t)) as (r & x & E); [discriminate|].
  rewrite E, last_last. unfold Py.endswith.
  rewrite rev_app_distr. cbn [rev app Py.startswith].
  rewrite N.eqb_sym. destruct (rev r); now rewrite andb_true_r.
Qed.

Lemma startswith_head (c : char) (t : str) (d : char) :
  Py.startswith (c :: t) [d] = (c =? d)%N.
Proof.
  cbn [Py.startswith]. rewrite N.eqb_sym. destruct t; now rewrite andb_true_r.
Qed.

(** The quote test and the slice [value[1:-1]] are step (b). *)
Lemma quoted_slice_unquote (v : str) :
  (if Py.startswith v [dq] && Py.endswith v [dq]
   then Py.slice v (Some 1%Z) (Some (-1)%Z) else v) = unquote v.
Proof.
  destruct v as [|c t]; [reflexivity|].
  rewrite startswith_head, endswith_last. unfold unquote.
  destruct ((c =? dq)%N && (last (c :: t) 0 =? dq)%N); [|reflexivity].
  apply slice_inner.
Qed.

Lemma normalize_value_steps (v : str) :
  normalize_value v = unescape (unquote (trim v)).
Proof.
  unfold normalize_value. rewrite replace_unescape, quoted_slice_unquote.
  reflexivity.
Qed.

Lemma lstrip_id (v : str) :
  (forall c, hd_error v = Some c -> Py.isspace c = false) -> Py.lstrip v = v.
Proof.
  destruct v as [|c t]; [reflexivity|].
  intros H. cbn [Py.lstrip]. now rewrite (H c eq_refl).
Qed.

Lemma strip_id (v : str) :
  (forall c, hd_error v = Some c -> Py.isspace c = false) ->
  (forall c, hd_error (rev v) = Some c -> Py.isspace c = false) ->
  Py.strip v = v.
Proof.
  intros H1 H2. unfold Py.strip, Py.rstrip.
  rewrite (lstrip_id v H1), (lstrip_id (rev v) H2). apply rev_involutive.
Qed.

Lemma unescape_id (v : str) :
  (forall a b, v <> a ++ [dq; dq] ++ b) -> unescape v = v.
Proof.
  induction v as [|c t IH]; [reflexivity|].
  destruct t as [|c' t']; [reflexivity|].
  intros H. rewrite unescape_cons2.
  destruct ((c =? dq)%N && (c' =? dq)%N) eqn:E.
  - apply andb_true_iff in E. destruct E as [E1 E2].
    apply N.eqb_eq in E1, E2. subst. destruct (H [] t'). reflexivity.
  - rewrite IH; [reflexivity|].
    intros a b Hab. apply (H (c :: a) b). rewrite Hab. reflexivity.
Qed.

Lemma unquote_id (v : str) :
  ~ (hd_error v = Some dq /\ hd_error (rev v) = Some dq) -> unquote v = v.
Proof.
  intros H. rewrite <- quoted_slice_unquote.
  destruct (Py.startswith v [dq] && Py.endswith v [dq]) eqn:E; [|reflexivity].
  apply andb_true_iff in E. destruct E as [E1 E2].
  apply startswith_1 in E1. apply endswith_1 in E2. tauto.
Qed.

Lemma has_doubled_quote_false (v : str) :
  has_doubled_quote v = false -> forall a b, v <> a ++ [dq; dq] ++ b.
Proof.
  induction v as [|c t IH]; intros H a b E.
  - destruct a; discriminate.
  - destruct t as [|c' t']; [destruct a as [|? [|? ?]]; discriminate|].
    cbn [has_doubled_quote] in H. apply orb_false_iff in H.
    destruct H as [H1 H2]. destruct a as [|x a].
    + injection E as -> ->. discriminate.
    + injection E as _ E. exact (IH H2 a b E).
Qed.

Lemma is_normalized_sound (v : str) :
  is_normalized v = true -> normalized v.
Proof.
  unfold is_normalized. rewrite !andb_true_iff, !negb_true_iff.
  intros [[[H1 H2] H3] H4]. constructor.
  - intros c E. destruct v; [discriminate|]. injection E as ->. exact H1.
  - intros c E. destruct (rev v); [discriminate|]. injection E as ->.
    exact H2.
  - intros [E1 E2]. apply startswith_1 in E1. apply endswith_1 in E2.
    rewrite E1, E2 in H3. discriminate.
  - apply has_doubled_quote_false, H4.
Qed.

Lemma lstrip_spec (v : str) :
  exists l, v = l ++ Py.lstrip v
            /\ forallb Py.isspace l = true
            /\ space_at_head (Py.lstrip v) = false.
Proof.
  induction v as [|c t (l & E & Hl & Hh)]; [exists []; repeat split|].
  cbn [Py.lstrip]. destruct (Py.isspace c) eqn:Ec.
  - exists (c :: l). cbn [app forallb]. rewrite Ec, Hl, <- E. repeat split.
    exact Hh.
  - exists []. repeat split. exact Ec.
Qed.

(** What [strip] returns: the value without the whitespace around it. *)
Lemma strip_spec (v : str) :
  exists l r, v = l ++ Py.strip v ++ r
              /\ forallb Py.isspace l = true
              /\ forallb Py.isspace r = true
              /\ space_at_head (Py.strip v) = false
              /\ space_at_head (rev (Py.strip v)) = false.
Proof.
  destruct (lstrip_spec v) as (l & E1 & Hl & H1).
  destruct (lstrip_spec (rev (Py.lstrip v))) as (r & E2 & Hr & H2).
  assert (E3 : Py.lstrip v = Py.strip v ++ rev r).
  { unfold Py.strip, Py.rstrip. rewrite <- rev_app_distr, <- E2.
    symmetry. apply rev_involutive. }
  exists l, (rev r). split; [rewrite <- E3; exact E1|].
  split; [exact Hl|]. split; [|split].
  - rewrite forallb_forall in *. intros x Hx. apply Hr, in_rev, Hx.
  - rewrite E3 in H1. destruct (Py.strip v); [reflexivity | exact H1].
  - unfold Py.strip, Py.rstrip. rewrite rev_involutive. exact H2.
Qed.

(** C2. [normalize_value] is: (a) strip the whitespace, then (b) drop one
    leading and one trailing quote when the value has both, then (c) replace
    doubled quotes by single ones; and each of the five other orders of
    these three steps gives a different result on some input. *)
Theorem normalize_value_order :
  (forall v, normalize_value v = unescape (unquote (trim v)))
  /\ (forall v, exists l r,
        v = l ++ trim v ++ r
        /\ forallb Py.isspace l = true /\ forallb Py.isspace r = true
        /\ space_at_head (trim v) = false
        /\ space_at_head (rev (trim v)) = false)
  /\ (exists v, unescape (trim (unquote v)) <> normalize_value v)
  /\ (exists v, unquote (unescape (trim v)) <> normalize_value v)
  /\ (exists v, trim (unescape (unquote v)) <> normalize_value v)
  /\ (exists v, unquote (trim (unescape v)) <> normalize_value v)
  /\ (exists v, trim (unquote (unescape v)) <> normalize_value v).
Proof.
  split; [exact normalize_value_steps|]. split; [exact strip_spec|].
  pose (padded := [space; dq; 120; dq; space]%N).
  pose (ragged := [dq; dq; 120; dq]%N).
  repeat split.
  - exists padded. vm_compute. discriminate.
  - exists ragged. vm_compute. discriminate.
  - exists padded. vm_compute. discriminate.
  - exists ragged. vm_compute. discriminate.
  - exists padded. vm_compute. discriminate.
Qed.

(** C8. A value without leading or trailing whitespace, not both starting
    and ending with a double quote, and without two consecutive double
    quotes is left unchanged by [normalize_value]. *)
Theorem normalize_value_normalized (v : str) :
  normalized v -> normalize_value v = v.
Proof.
  intros [H1 H2 H3 H4]. rewrite normalize_value_steps. unfold trim.
  rewrite (strip_id v H1 H2), (unquote_id v H3). apply unescape_id, H4.
Qed.

(** C9. The string made of one double quote normalizes to the empty string:
    it passes both the starts-with and the ends-with test and the slice
    [1:-1] of a one-character string is empty; the same holds for every
    value that strips to one double quote. *)
Theorem normalize_value_lone_quote :
  normalize_value [dq] = []
  /\ forall v, Py.strip v = [dq] ->
       Py.startswith (Py.strip v) [dq] = true
       /\ Py.endswith (Py.strip v) [dq] = true
       /\ Py.slice (Py.strip v) (Some 1%Z) (Some (-1)%Z) = []
       /\ normalize_value v = [].
Proof.
  split; [reflexivity|].
  intros v H. unfold normalize_value. rewrite H. repeat split.
Qed.

Lemma normalize_value_normalized_witness :
  normalized say_hi /\ normalize_value say_hi = say_hi.
Proof.
  assert (H : normalized say_hi) by (apply is_normalized_sound; reflexivity).
  split; [exact H | exact (normalize_value_normalized H)].
Defined.

Lemma normalize_value_lone_quote_witness :
  Py.strip [space; dq; space] = [dq]
  /\ normalize_value [space; dq; space] = [].
Proof.
  split; [reflexivity|].
  apply (proj2 normalize_value_lone_quote [space; dq; space]). reflexivity.
Defined.

End Normalize.

(** ** Line parsing *)

Section ParseLine.

Import LineSpec.

(** The parity test of the loop, [quotes_number % 2 == 0]. *)
Lemma parity_test (n : nat) :
  (Z.of_nat n mod 2 =? 0)%Z = Nat.even n.
Proof.
  rewrite <- Zeven_mod. induction n as [|n IH]; [reflexivity|].
  rewrite Nat2Z.inj_succ, Z.even_succ, Nat.even_succ.
  rewrite <- Z.negb_even, <- Nat.negb_even, IH. reflexivity.
Qed.

Lemma chomp_app (l : str) (c : char) :
  chomp (l ++ [c]) = if (c =? nl)%N then l else l ++ [c].
Proof.
  unfold chomp. rewrite rev_app_distr. cbn [rev app].
  destruct (c =? nl)%N; [apply rev_involutive | reflexivity].
Qed.

(** The first statement of [parse_line] is step 1. *)
Lemma endswith_slice_chomp (line : str) :
  (if Py.endswith line [nl] then Py.slice line None (Some (-1)%Z) else line)
  = chomp line.
Proof.
  destruct line as [|c t] using rev_ind; [reflexivity|]. clear IHt.
  rewrite chomp_app. unfold Py.endswith.
  rewrite rev_app_distr. cbn [rev app]. rewrite startswith_head.
  destruct (c =? nl)%N; [apply slice_drop_last | reflexivity].
Qed.

Lemma is_separator_at (pre suf : str) (c : char) :
  is_separator (pre ++ c :: suf) (length pre)
  = (c =? comma)%N && Nat.even (count_occ N.eq_dec pre dq).
Proof.
  unfold is_separator, quotes_before.
  rewrite nth_error_app2, Nat.sub_diag by lia. cbn [nth_error].
  rewrite firstn_app, Nat.sub_diag, firstn_all. cbn [firstn].
  rewrite app_nil_r. reflexivity.
Qed.

Lemma count_quotes_snoc (pre : str) (c : char) :
  count_occ N.eq_dec (pre ++ [c]) dq
  = count_occ N.eq_dec pre dq + (if (c =? dq)%N then 1 else 0).
Proof.
  rewrite count_occ_app. cbn [count_occ].
  destruct (N.eq_dec c dq) as [->|n].
  - reflexivity.
  - apply N.eqb_neq in n. rewrite n. reflexivity.
Qed.

(** The loop invariant of [parse_line]: after the characters of [pre], the
    fields already appended together with the fields still to come are the
    fields of the specification. *)
Lemma scan_fields (line : str) :
  forall (suf pre : str) (st : scan) (start : nat),
    line = pre ++ suf ->
    start_index st = Z.of_nat start ->
    start <= length pre ->
    quotes_number st = Z.of_nat (count_occ N.eq_dec pre dq) ->
    let st' := fold_left (scan_step line)
                 (Py.enumerate_from (Z.of_nat (length pre)) suf) st in
    parsed_line st'
      ++ [normalize_value (Py.slice line (Some (start_index st')) None)]
    = parsed_line st
      ++ map normalize_value
           (fields line start
              (filter (is_separator line) (seq (length pre) (length suf)))).
Proof.
  induction suf as [|c suf IH]; intros pre st start Hline Hstart Hle Hq.
  - cbn. rewrite Hstart, slice_from; [reflexivity|].
    rewrite Hline, length_app. lia.
  - cbn [Py.enumerate_from fold_left length seq filter].
    assert (Hline' : line = (pre ++ [c]) ++ suf)
      by (rewrite <- app_assoc; exact Hline).
    assert (Hlen : (Z.of_nat (length pre) + 1 = Z.of_nat (length (pre ++ [c])))%Z)
      by (rewrite length_app; simpl; lia).
    assert (Hseq : S (length pre) = length (pre ++ [c]))
      by (rewrite length_app; simpl; lia).
    assert (Hsep : is_separator line (length pre)
                   = (c =? comma)%N && Nat.even (count_occ N.eq_dec pre dq))
      by (rewrite Hline; apply is_separator_at).
    assert (Hstep : scan_step line st (Z.of_nat (length pre), c)
              = if (c =? comma)%N && Nat.even (count_occ N.eq_dec pre dq)
                then mkScan
                       (parsed_line st
                        ++ [normalize_value
                              (Py.slice line (Some (start_index st))
                                 (Some (Z.of_nat (length pre))))])
                       (Z.of_nat (length pre) + 1) (quotes_number st)
                else if (c =? dq)%N
                     then mkScan (parsed_line st) (start_index st)
                            (quotes_number st + 1)
                     else st)
      by (unfold scan_step; rewrite Hq, parity_test; reflexivity).
    rewrite Hsep, Hstep, Hlen, Hseq.
    destruct ((c =? comma)%N && Nat.even (count_occ N.eq_dec pre dq)) eqn:E.
    + apply andb_true_iff in E. destruct E as [Ec _]. apply N.eqb_eq in Ec.
      match goal with |- context [fold_left _ _ ?s1] => set (st1 := s1) end.
      assert (Hq1 : quotes_number st1
                    = Z.of_nat (count_occ N.eq_dec (pre ++ [c]) dq)).
      { rewrite count_quotes_snoc, Ec. cbn. rewrite Nat.add_0_r. exact Hq. }
      rewrite (IH (pre ++ [c]) st1 (length (pre ++ [c])) Hline' eq_refl
                 (le_n _) Hq1).
      subst st1. cbn [parsed_line]. rewrite <- app_assoc.
      cbn [fields map app]. rewrite Hstart, <- Hseq, slice_between.
      * reflexivity.
      * rewrite Hline, length_app. lia.
    + assert (Hle1 : start <= length (pre ++ [c]))
        by (rewrite length_app; lia).
      destruct (c =? dq)%N eqn:Ed.
      * match goal with |- context [fold_left _ _ ?s1] => set (st1 := s1) end.
        assert (Hq1 : quotes_number st1
                      = Z.of_nat (count_occ N.eq_dec (pre ++ [c]) dq)).
        { rewrite count_quotes_snoc, Ed. cbn [quotes_number st1].
          rewrite Hq. lia. }
        rewrite (IH (pre ++ [c]) st1 start Hline' Hstart Hle1 Hq1).
        reflexivity.
      * assert (Hq1 : quotes_number st
                      = Z.of_nat (count_occ N.eq_dec (pre ++ [c]) dq)).
        { rewrite count_quotes_snoc, Ed, Nat.add_0_r. exact Hq. }
        rewrite (IH (pre ++ [c]) st start Hline' Hstart Hle1 Hq1).
        reflexivity.
Qed.

Lemma parse_line_split (s : str) :
  parse_line s = map normalize_value (split_line (chomp s)).
Proof.
  unfold parse_line. rewrite endswith_slice_chomp. cbv zeta.
  exact (@scan_fields (chomp s) (chomp s) [] (mkScan [] 0 0) 0
           eq_refl eq_refl (le_n 0) eq_refl).
Qed.

Lemma fields_length (line : str) (seps : list nat) (start : nat) :
  length (fields line start seps) = S (length seps).
Proof.
  revert start. induction seps as [|i r IH]; intros start; cbn; [|rewrite IH];
    reflexivity.
Qed.

Lemma join_cons (sep p q : str) (rest : list str) :
  Py.join sep (p :: q :: rest) = p ++ sep ++ Py.join sep (q :: rest).
Proof. reflexivity. Qed.

(** The fields of the specification are a split of the line: putting the
    commas back between them gives the line again. *)
Lemma fields_join (line : str) :
  forall (suf pre : str) (start : nat),
    line = pre ++ suf -> start <= length pre ->
    Py.join [comma]
      (fields line start
         (filter (is_separator line) (seq (length pre) (length suf))))
    = skipn start line.
Proof.
  induction suf as [|c suf IH]; intros pre start Hline Hle.
  - reflexivity.
  - cbn [length seq filter].
    assert (Hline' : line = (pre ++ [c]) ++ suf)
      by (rewrite <- app_assoc; exact Hline).
    assert (Hseq : S (length pre) = length (pre ++ [c]))
      by (rewrite length_app; simpl; lia).
    assert (Hsep : is_separator line (length pre)
                   = (c =? comma)%N && Nat.even (count_occ N.eq_dec pre dq))
      by (rewrite Hline; apply is_separator_at).
    rewrite Hsep, Hseq.
    destruct ((c =? comma)%N && Nat.even (count_occ N.eq_dec pre dq)) eqn:E.
    + apply andb_true_iff in E. destruct E as [Ec _]. apply N.eqb_eq in Ec.
      specialize (IH (pre ++ [c]) (length (pre ++ [c])) Hline' (le_n _)).
      cbn [fields].
      destruct (fields line (S (length pre)) _) as [|q rest] eqn:F.
      { apply (f_equal (@length str)) in F.
        rewrite fields_length in F. discriminate. }
      rewrite join_cons. rewrite Hseq in F. rewrite <- F, IH.
      rewrite Hline' at 2. rewrite skipn_app, Nat.sub_diag, skipn_all.
      cbn [app skipn]. rewrite Hline at 1 2.
      rewrite !skipn_app. replace (start - length pre) with 0 by lia.
      cbn [skipn]. rewrite firstn_app, length_skipn.
      rewrite firstn_all2 by (rewrite length_skipn; lia).
      replace (length pre - start - (length pre - start)) with 0 by lia.
      cbn [firstn]. rewrite app_nil_r, Ec. reflexivity.
    + apply (IH (pre ++ [c]) start Hline'). rewrite <- Hseq. lia.
Qed.

Lemma split_line_join (line : str) :
  Py.join [comma] (split_line line) = line.
Proof. exact (@fields_join line line [] 0 eq_refl (le_n 0)). Qed.

Lemma separators_spec (line : str) (i : nat) :
  In i (separators line)
  <-> nth_error line i = Some comma
      /\ Nat.even (count_occ N.eq_dec (firstn i line) dq) = true.
Proof.
  unfold separators. rewrite filter_In, in_seq. unfold is_separator.
  fold (quotes_before line i).
  destruct (nth_error line i) as [c|] eqn:E.
  - assert (i < length line) by (apply nth_error_Some; congruence).
    rewrite andb_true_iff, N.eqb_eq. split.
    + intros (_ & -> & H2). auto.
    + intros (H1 & H2). injection H1 as ->. repeat split; auto; lia.
  - split; [intros (_ & H); discriminate | intros (H & _); discriminate].
Qed.

(** C1. [parse_line] removes one trailing newline if there is one, then
    splits the rest at exactly the commas preceded by an even number of
    double quotes (normalizing every piece): the number of fields is one
    plus the number of such commas, so the result is never empty, and the
    empty line gives one empty field. *)
Theorem parse_line_fields :
  (forall l c, chomp (l ++ [c]) = if (c =? nl)%N then l else l ++ [c])
  /\ chomp [] = []
  /\ (forall line i,
        In i (separators line)
        <-> nth_error line i = Some comma
            /\ Nat.even (count_occ N.eq_dec (firstn i line) dq) = true)
  /\ (forall line, Py.join [comma] (split_line line) = line)
  /\ (forall s,
        parse_line s = map normalize_value (split_line (chomp s))
        /\ length (parse_line s) = 1 + length (separators (chomp s))
        /\ parse_line s <> [])
  /\ parse_line [] = [[]]
  /\ parse_line [nl] = [[]].
Proof.
  split; [exact chomp_app|]. split; [reflexivity|].
  split; [exact separators_spec|]. split; [exact split_line_join|].
  split; [|split; reflexivity].
  intros s.
  assert (L : length (parse_line s) = 1 + length (separators (chomp s))).
  { rewrite parse_line_split, length_map. apply fields_length. }
  split; [apply parse_line_split|]. split; [exact L|].
  intros E. rewrite E in L. discriminate.
Qed.

(** C7. The line holding the one quoted field with doubled inner quotes and
    a comma parses to exactly one field, the original value: the comma
    inside the quotes is no separator and the doubled quotes are
    unescaped. *)
Theorem parse_line_quoted_example :
  parse_line quoted_example = [quoted_example_value]
  /\ In comma quoted_example
  /\ separators quoted_example = [].
Proof.
  split; [reflexivity|]. split; [|reflexivity].
  unfold quoted_example. rewrite !in_app_iff. do 5 right. left.
  cbn. do 4 right. left. reflexivity.
Qed.

End ParseLine.

(** ** Records *)

Section Records.

Lemma dict_of_fold (ps : list (str * str)) :
  Py.dict_of ps = fold_left put ps [].
Proof. reflexivity. Qed.

Lemma get_setitem_same (d : Py.dict) (k v : str) :
  Py.get (Py.setitem d k v) k = Some v.
Proof.
  induction d as [|[k' v'] r IH]; cbn [Py.setitem Py.get].
  - now rewrite str_eqb_refl.
  - destruct (str_eqb k' k) eqn:E; cbn [Py.get]; rewrite E; auto.
Qed.

Lemma get_setitem_other (d : Py.dict) (k v k0 : str) :
  k0 <> k -> Py.get (Py.setitem d k v) k0 = Py.get d k0.
Proof.
  intros N. induction d as [|[k' v'] r IH]; cbn [Py.setitem Py.get].
  - apply str_eqb_neq in N.
    destruct (str_eqb k k0) eqn:E; [|reflexivity].
    apply str_eqb_eq in E. apply str_eqb_neq in N. congruence.
  - destruct (str_eqb k' k) eqn:E; cbn [Py.get].
    + apply str_eqb_eq in E. subst k'.
      destruct (str_eqb k k0) eqn:E0; [|reflexivity].
      apply str_eqb_eq in E0. congruence.
    + rewrite IH. reflexivity.
Qed.

Lemma keys_setitem (d : Py.dict) (k v : str) :
  keys (Py.setitem d k v) = if in_dec str_eq_dec k (keys d)
                            then keys d else keys d ++ [k].
Proof.
  unfold keys. induction d as [|[k' v'] r IH]; [reflexivity|].
  cbn [Py.setitem map fst].
  destruct (str_eqb k' k) eqn:E.
  - apply str_eqb_eq in E. subst k'.
    destruct (in_dec str_eq_dec k (k :: map fst r)) as [_|n]; [reflexivity|].
    destruct n. now left.
  - cbn [map fst]. rewrite IH. apply str_eqb_neq in E.
    destruct (in_dec str_eq_dec k (map fst r)) as [i|n];
      destruct (in_dec str_eq_dec k (k' :: map fst r)) as [i'|n']; try reflexivity.
    + destruct n'. now right.
    + destruct i' as [->|i']; [congruence | contradiction].
Qed.

Lemma get_fold_put_other (ps : list (str * str)) (d : Py.dict) (k : str) :
  ~ In k (map fst ps) -> Py.get (fold_left put ps d) k = Py.get d k.
Proof.
  revert d. induction ps as [|[k' v'] ps IH]; intros d N; [reflexivity|].
  cbn [fold_left]. rewrite IH by (intros I; apply N; now right).
  apply get_setitem_other. intros ->. apply N. now left.
Qed.

(** [dict(pairs)[k]] is the value of the last pair whose key is [k]. *)
Lemma get_dict_of_last (p1 p2 : list (str * str)) (k v : str) :
  ~ In k (map fst p2) ->
  Py.get (Py.dict_of (p1 ++ (k, v) :: p2)) k = Some v.
Proof.
  intros N. rewrite dict_of_fold, fold_left_app. cbn [fold_left].
  rewrite get_fold_put_other by exact N. apply get_setitem_same.
Qed.

Lemma get_in_keys (d : Py.dict) (k : str) :
  In k (keys d) <-> Py.get d k <> None.
Proof.
  induction d as [|[k' v'] r IH]; cbn [keys map fst Py.get In].
  - tauto.
  - destruct (str_eqb k' k) eqn:E.
    + apply str_eqb_eq in E. split; [discriminate | now left].
    + apply str_eqb_neq in E. fold (keys r). rewrite <- IH. tauto.
Qed.

Lemma keys_fold_put (ps : list (str * str)) (d : Py.dict) :
  NoDup (keys d) ->
  NoDup (keys (fold_left put ps d))
  /\ forall k, In k (keys (fold_left put ps d))
               <-> In k (keys d) \/ In k (map fst ps).
Proof.
  revert d. induction ps as [|[k' v'] ps IH]; intros d ND.
  - cbn. split; [exact ND | tauto].
  - cbn [fold_left map fst In].
    assert (ND' : NoDup (keys (put d (k', v')))).
    { unfold put. cbn [fst snd]. rewrite keys_setitem.
      destruct (in_dec str_eq_dec k' (keys d)) as [i|n]; [exact ND|].
      apply NoDup_app; [exact ND | |].
      - constructor; [intros [] | constructor].
      - intros a Ha [<-|[]]. contradiction. }
    destruct (IH _ ND') as [H1 H2]. split; [exact H1|].
    intros k. rewrite H2. unfold put. cbn [fst snd]. rewrite keys_setitem.
    destruct (in_dec str_eq_dec k' (keys d)) as [i|n].
    + split; [tauto|]. intros [H|[<-|H]]; tauto.
    + rewrite in_app_iff. cbn [In]. tauto.
Qed.

Lemma keys_dict_of (ps : list (str * str)) :
  NoDup (keys (Py.dict_of ps))
  /\ forall k, In k (keys (Py.dict_of ps)) <-> In k (map fst ps).
Proof.
  destruct (@keys_fold_put ps [] (NoDup_nil _)) as [H1 H2].
  split; [exact H1|]. intros k. rewrite dict_of_fold, H2. cbn. tauto.
Qed.

Lemma zip_keys (headers line : Line) :
  map fst (Py.zip headers line) = firstn (length line) headers.
Proof.
  unfold Py.zip. revert line.
  induction headers as [|h hs IH]; intros [|l ls]; cbn; try reflexivity.
  now rewrite IH.
Qed.

Lemma zip_nth (headers line : Line) (i : nat) :
  nth_error (Py.zip headers line) i
  = match nth_error headers i, nth_error line i with
    | Some h, Some l => Some (h, l)
    | _, _ => None
    end.
Proof.
  unfold Py.zip. revert headers line.
  induction i as [|i IH]; intros [|h hs] [|l ls]; cbn; try reflexivity.
  - destruct (nth_error hs i); reflexivity.
  - apply IH.
Qed.

Lemma zip_length (headers line : Line) :
  length (Py.zip headers line) = min (length headers) (length line).
Proof. apply length_combine. Qed.

(** With duplicated header names the last index within range wins. *)
Lemma record_last_wins (headers line : Line) (k : str) (i : nat) :
  i < min (length headers) (length line) ->
  nth_error headers i = Some k ->
  (forall j, i < j < min (length headers) (length line) ->
             nth_error headers j <> Some k) ->
  Py.get (record_of headers line) k = nth_error line i.
Proof.
  intros Hi Hk Hlast.
  destruct (nth_error line i) as [l|] eqn:El;
    [|apply nth_error_None in El; lia].
  assert (Ez : nth_error (Py.zip headers line) i = Some (k, l))
    by (rewrite zip_nth, Hk, El; reflexivity).
  destruct (nth_error_split _ _ Ez) as (p1 & p2 & E & Hlen).
  unfold record_of. rewrite E. apply get_dict_of_last.
  intros I. apply in_map_iff in I. destruct I as ([k' v'] & Ek & I).
  cbn in Ek. subst k'. apply In_nth_error in I. destruct I as [j Ej].
  assert (Ej' : nth_error (Py.zip headers line) (S i + j) = Some (k, v')).
  { rewrite E, nth_error_app2 by lia.
    replace (S i + j - length p1) with (S j) by lia. exact Ej. }
  assert (S i + j < length (Py.zip headers line))
    by (apply nth_error_Some; congruence).
  rewrite zip_length in *.
  apply (Hlast (S i + j)); [lia|].
  rewrite zip_nth in Ej'.
  destruct (nth_error headers (S i + j)); [|discriminate].
  destruct (nth_error line (S i + j)); congruence.
Qed.

Lemma record_keys (headers line : Line) (k : str) :
  In k (keys (record_of headers line))
  <-> In k (firstn (min (length headers) (length line)) headers).
Proof.
  unfold record_of.
  rewrite (proj2 (keys_dict_of _)), zip_keys.
  destruct (Nat.le_ge_cases (length headers) (length line)) as [H|H].
  - rewrite Nat.min_l, !firstn_all2 by lia. reflexivity.
  - rewrite Nat.min_r by lia. reflexivity.
Qed.

Lemma record_size (headers line : Line) :
  length (record_of headers line) <= min (length headers) (length line)
  /\ (~ NoDup (firstn (min (length headers) (length line)) headers) ->
      length (record_of headers line)
      < min (length headers) (length line)).
Proof.
  set (m := min (length headers) (length line)).
  assert (Hm : length (firstn m headers) = m)
    by (rewrite length_firstn; unfold m; lia).
  assert (Hk : length (keys (record_of headers line))
               = length (record_of headers line)) by apply length_map.
  assert (ND : NoDup (keys (record_of headers line)))
    by apply keys_dict_of.
  assert (Hincl : incl (keys (record_of headers line)) (firstn m headers))
    by (intros k; apply record_keys).
  split.
  - rewrite <- Hk, <- Hm. apply NoDup_incl_length; assumption.
  - intros Hdup.
    destruct (Nat.lt_ge_cases (length (record_of headers line)) m) as [H|H];
      [exact H|].
    destruct Hdup.
    apply (NoDup_incl_NoDup ND); [rewrite Hk, Hm; exact H | exact Hincl].
Qed.

Lemma zip_firstn_r (headers line : Line) :
  Py.zip headers line = Py.zip headers (firstn (length headers) line).
Proof. apply combine_firstn_l. Qed.

Lemma zip_firstn_l (headers line : Line) :
  Py.zip headers line = Py.zip (firstn (length line) headers) line.
Proof. apply combine_firstn_r. Qed.

(** C5, as amended.  The record written for a data line is
    [dict(zip(headers, line))]: the pairs [(headers[i], line[i])] for [i]
    below the smaller of the two lengths, inserted in order.  Its keys are
    exactly the names at those indices, and a name that occurs once there
    is mapped to the value at its index.  When the line is shorter than the
    headers, a trailing header name is absent from the record unless it
    also occurs among the first [len(line)] headers, and the record is the
    one of the truncated headers (header [name,age] with data line [Alice]
    gives the object with the one key [name]); when the line is longer,
    the trailing values are dropped. *)
Theorem record_of_pairs :
  (forall headers line : Line,
     let m := min (length headers) (length line) in
     write_json_data headers line
     = write (Py.json_dumps (record_of headers line) ++ lit ", ")
     /\ length (Py.zip headers line) = m
     /\ (forall i, nth_error (Py.zip headers line) i
                   = match nth_error headers i, nth_error line i with
                     | Some h, Some l => Some (h, l)
                     | _, _ => None
                     end)
     /\ (forall k, In k (keys (record_of headers line))
                   <-> In k (firstn m headers))
     /\ (forall i k, i < m -> nth_error headers i = Some k ->
           (forall j, j < m -> nth_error headers j = Some k -> j = i) ->
           Py.get (record_of headers line) k = nth_error line i)
     /\ (forall j k, length line <= j -> nth_error headers j = Some k ->
           ~ In k (firstn (length line) headers) ->
           Py.get (record_of headers line) k = None)
     /\ record_of headers line
        = record_of (firstn (length line) headers) line
     /\ record_of headers line
        = record_of headers (firstn (length headers) line))
  /\ record_of name_age alice = [(lit "name", lit "Alice")]
  /\ Py.json_dumps (record_of name_age alice) = alice_object.
Proof.
  split; [|split; reflexivity].
  intros headers line m.
  split; [reflexivity|]. split; [apply zip_length|].
  split; [apply zip_nth|]. split; [intros k; apply record_keys|].
  split; [|split; [|split]].
  - intros i k Hi Hk Huniq. apply record_last_wins; try assumption.
    intros j Hj E. specialize (Huniq j (proj2 Hj) E). lia.
  - intros j k Hj Hk Hnot.
    destruct (Py.get (record_of headers line) k) eqn:E; [|reflexivity].
    destruct Hnot.
    assert (I : In k (keys (record_of headers line)))
      by (apply get_in_keys; congruence).
    apply record_keys in I.
    assert (Hlen : j < length headers) by (apply nth_error_Some; congruence).
    rewrite Nat.min_r in I by lia. exact I.
  - unfold record_of. now rewrite <- zip_firstn_l.
  - unfold record_of. now rewrite <- zip_firstn_r.
Qed.

Lemma record_of_pairs_witness :
  let headers := [lit "id"; lit "name"; lit "age"] in
  let line := [lit "7"; lit "Alice"] in
  (1 < min (length headers) (length line)
   /\ nth_error headers 1 = Some (lit "name")
   /\ Py.get (record_of headers line) (lit "name") = Some (lit "Alice"))
  /\ (length line <= 2
      /\ nth_error headers 2 = Some (lit "age")
      /\ Py.get (record_of headers line) (lit "age") = None).
Proof.
  intros headers line.
  destruct (proj1 record_of_pairs headers line)
    as (_ & _ & _ & _ & Hmapped & Habsent & _).
  split.
  - split; [cbn; lia|]. split; [reflexivity|].
    apply (Hmapped 1 (lit "name")); [cbn; lia | reflexivity |].
    intros [|[|[|j]]] Hj E; cbn in Hj, E; try reflexivity; try discriminate;
      lia.
  - split; [cbn; lia|]. split; [reflexivity|].
    apply (Habsent 2 (lit "age")); [cbn; lia | reflexivity |].
    cbn. intros [E|[E|[]]]; discriminate.
Defined.

(** C5 as stated fails on headers with a repeated name: with headers
    [a,b,a] and the data line [x] the name at the trailing index 2 is [a],
    and [a] is a key of the record. *)
Lemma record_trailing_name_present :
  length short_line < length dup_headers
  /\ length short_line <= 2
  /\ nth_error dup_headers 2 = Some (lit "a")
  /\ record_of dup_headers short_line = [(lit "a", lit "x")]
  /\ ~ (forall j k, length short_line <= j ->
          nth_error dup_headers j = Some k ->
          Py.get (record_of dup_headers short_line) k = None).
Proof.
  split; [cbn; lia|]. split; [cbn; lia|]. split; [reflexivity|].
  split; [reflexivity|].
  intros H. specialize (H 2 (lit "a")). cbn in H.
  specialize (H (le_S _ _ (le_n 1)) eq_refl). discriminate.
Qed.

Lemma write_json_data_running (headers line : Line) (text c : str) :
  write_json_data headers line (running text c)
  = (Returned tt,
     running text (c ++ Py.json_dumps (record_of headers line) ++ lit ", ")).
Proof.
  change (write (Py.json_dumps (record_of headers line) ++ lit ", ")
            (running text c)
          = (Returned tt,
             running text
               (c ++ Py.json_dumps (record_of headers line) ++ lit ", "))).
  generalize (Py.json_dumps (record_of headers line) ++ lit ", ").
  intros data.
  assert (W : write_at c (length c) data = c ++ data).
  { unfold write_at. rewrite firstn_all, Nat.sub_diag, skipn_all2 by lia.
    cbn [repeat app]. now rewrite app_nil_r. }
  unfold write, running. cbn.
  rewrite Nat2Z.id, W, <- Nat2Z.inj_add, <- length_app. reflexivity.
Qed.

(** C10. [write_json_data] writes the JSON text of the record
    [dict(zip(headers, line))], one key and value per pair of the record.
    When a header name occurs at several indices, the record maps it to
    the value at its last index within range of the data line; the record
    never has more pairs than the shorter of the two lengths, and it has
    strictly fewer as soon as the name also occurs at an earlier index,
    whose value is overwritten. *)
Theorem record_of_duplicate_header (headers line : Line) (k : str) (i : nat) :
  i < min (length headers) (length line) ->
  nth_error headers i = Some k ->
  (forall j, i < j < min (length headers) (length line) ->
             nth_error headers j <> Some k) ->
  write_json_data headers line
  = write (Py.json_dumps (record_of headers line) ++ lit ", ")
  /\ (forall text c,
        write_json_data headers line (running text c)
        = (Returned tt,
           running text
             (c ++ Py.json_dumps (record_of headers line) ++ lit ", ")))
  /\ Py.json_dumps (record_of headers line)
     = lit "{"
       ++ Py.join (lit ", ")
            (map (fun kv => Py.encode_basestring_ascii (fst kv) ++ lit ": "
                            ++ Py.encode_basestring_ascii (snd kv))
               (record_of headers line))
       ++ lit "}"
  /\ Py.get (record_of headers line) k = nth_error line i
  /\ length (record_of headers line) <= min (length headers) (length line)
  /\ ((exists i', i' < i /\ nth_error headers i' = Some k) ->
      length (record_of headers line)
      < min (length headers) (length line)).
Proof.
  intros Hi Hk Hlast.
  split; [reflexivity|].
  split; [intros text c; apply write_json_data_running|].
  split; [reflexivity|].
  split; [now apply record_last_wins|].
  split; [apply record_size|].
  intros (i' & Hi' & Hk'). apply record_size.
  set (m := min (length headers) (length line)) in *.
  intros ND. rewrite NoDup_nth_error in ND.
  assert (Hm : length (firstn m headers) = m)
    by (rewrite length_firstn; unfold m; lia).
  specialize (ND i' i). rewrite Hm in ND.
  rewrite !nth_error_firstn in ND.
  destruct (Nat.ltb_spec i' m); [|lia]. destruct (Nat.ltb_spec i m); [|lia].
  specialize (ND ltac:(lia) ltac:(congruence)). lia.
Qed.

Lemma record_of_duplicate_header_witness :
  let headers := [lit "a"; lit "b"; lit "a"] in
  let line := [lit "1"; lit "2"; lit "3"] in
  write_json_data headers line (running [] json_file_header)
  = (Returned tt,
     running []
       (json_file_header
        ++ lit "{" ++ [dq] ++ lit "a" ++ [dq] ++ lit ": " ++ [dq] ++ lit "3"
        ++ [dq] ++ lit ", " ++ [dq] ++ lit "b" ++ [dq] ++ lit ": " ++ [dq]
        ++ lit "2" ++ [dq] ++ lit "}, "))
  /\ Py.get (record_of headers line) (lit "a") = Some (lit "3")
  /\ length (record_of headers line) < 3.
Proof.
  intros headers line.
  destruct (@record_of_duplicate_header headers line (lit "a") 2)
    as (_ & Hwrite & _ & Hget & _ & Hlt).
  - cbn. lia.
  - reflexivity.
  - cbn. intros j Hj. lia.
  - split; [rewrite Hwrite; reflexivity|].
    split; [exact Hget|]. apply Hlt. exists 0. split; [lia | reflexivity].
Defined.

End Records.

(** ** The conversion *)

Section Conversion.

Ltac case_if :=
  match goal with
  | |- context [if ?b then _ else _] => destruct b
  end.

Lemma bind_run {A B} (m : M A) (k : A -> M B) (self : converter) :
  bind m k self
  = match m self with
    | (Returned a, self') => k a self'
    | (Raised e, self') => (Raised e, self')
    | (Exhausted, self') => (Exhausted, self')
    end.
Proof. reflexivity. Qed.

Lemma bind_assoc {A B C} (m : M A) (k : A -> M B) (h : B -> M C)
      (self : converter) :
  bind (bind m k) h self = bind m (fun a => bind (k a) h) self.
Proof.
  unfold bind. destruct (m self) as [[a|e|] self']; reflexivity.
Qed.

Lemma convert_data_split (self : converter) :
  _convert_data self = (before_footer ;; _write_json_file_footer) self.
Proof.
  unfold _convert_data, before_footer, bind.
  destruct (_write_json_file_header self) as [[[]|e|] s1]; try reflexivity.
  destruct (get_csv_headers s1) as [[headers|e|] s2]; reflexivity.
Qed.

Lemma take_line_body (b r : str) :
  forallb (fun c => negb (c =? nl)%N) b = true ->
  take_line (b ++ nl :: r) = (b ++ [nl], r).
Proof.
  induction b as [|c b IH]; intros H; [reflexivity|].
  cbn [forallb] in H. apply andb_true_iff in H. destruct H as [Hc Hb].
  cbn [app take_line]. apply negb_true_iff in Hc. rewrite Hc, (IH Hb).
  reflexivity.
Qed.

Lemma take_line_rest (b : str) :
  forallb (fun c => negb (c =? nl)%N) b = true -> take_line b = (b, []).
Proof.
  induction b as [|c b IH]; intros H; [reflexivity|].
  cbn [forallb] in H. apply andb_true_iff in H. destruct H as [Hc Hb].
  cbn [take_line]. apply negb_true_iff in Hc. rewrite Hc, (IH Hb).
  reflexivity.
Qed.

Lemma is_line_inv (l : str) :
  is_line l = true ->
  exists b c, l = b ++ [c] /\ forallb (fun c => negb (c =? nl)%N) b = true.
Proof.
  unfold is_line. destruct (rev l) as [|c r] eqn:E; [discriminate|].
  intros H. exists (rev r), c. split.
  - rewrite <- (rev_involutive l), E. reflexivity.
  - rewrite forallb_forall in *. intros x Hx. apply H, in_rev, Hx.
Qed.

(** Reading the first line of a well-formed text. *)
Lemma take_line_first (l : str) (rest : list str) :
  lines_ok (l :: rest) = true ->
  take_line (concat (l :: rest)) = (l, concat rest) /\ l <> [].
Proof.
  cbn [lines_ok concat]. intros H. apply andb_true_iff in H.
  destruct H as [Hl Hrest].
  destruct (is_line_inv l Hl) as (b & c & -> & Hb).
  split; [|destruct b; discriminate].
  destruct rest as [|l2 rest].
  - cbn [concat]. rewrite app_nil_r.
    destruct (c =? nl)%N eqn:Ec.
    + apply N.eqb_eq in Ec. subst c. exact (take_line_body b [] Hb).
    + apply take_line_rest. rewrite forallb_app. apply andb_true_iff.
      split; [exact Hb | cbn [forallb]; now rewrite Ec].
  - apply andb_true_iff in Hrest. destruct Hrest as [He _].
    unfold Py.endswith in He. rewrite rev_app_distr in He.
    cbn [rev app] in He. rewrite startswith_head in He.
    apply N.eqb_eq in He. subst c. rewrite <- app_assoc. cbn [app].
    apply take_line_body, Hb.
Qed.

Lemma lines_ok_tail (l : str) (rest : list str) :
  lines_ok (l :: rest) = true -> lines_ok rest = true.
Proof.
  cbn [lines_ok]. intros H. apply andb_true_iff in H. destruct H as [_ H].
  destruct rest; [reflexivity|].
  apply andb_true_iff in H. apply H.
Qed.

Lemma write_at_end (c data : str) :
  write_at c (length c) data = c ++ data.
Proof.
  unfold write_at.
  rewrite firstn_all, Nat.sub_diag, skipn_all2 by lia.
  cbn [repeat app]. now rewrite app_nil_r.
Qed.

Lemma readline_running (text c l r : str) :
  take_line text = (l, r) ->
  readline (running text c) = (Returned l, running r c).
Proof. intros H. unfold readline, running. cbn. rewrite H. reflexivity. Qed.

Lemma write_running (text c data : str) :
  write data (running text c) = (Returned tt, running text (c ++ data)).
Proof.
  unfold write, running. cbn.
  rewrite Nat2Z.id, write_at_end, <- Nat2Z.inj_add, <- length_app.
  reflexivity.
Qed.

(** The loop over the data lines: it returns, having read every line and
    appended one object and one separator per line. *)
Lemma for_lines_running (headers : Line) :
  forall (ls : list str) (budget : nat) (c : str),
    lines_ok ls = true -> length ls < budget ->
    for_source_file_lines budget (convert_line headers)
      (running (concat ls) c)
    = (Returned tt,
       running []
         (c ++ concat (map (fun l => json_object headers l ++ lit ", ") ls))).
Proof.
  induction ls as [|l rest IH]; intros [|budget] c Hok Hb; try (cbn in Hb; lia).
  - cbn [for_source_file_lines concat map]. rewrite bind_run.
    rewrite (@readline_running [] c [] [] eq_refl). cbn [concat].
    rewrite app_nil_r. reflexivity.
  - destruct (take_line_first _ _ Hok) as [Ht Hne].
    cbn [for_source_file_lines]. rewrite bind_run.
    rewrite (@readline_running _ c _ _ Ht).
    destruct l as [|x l]; [congruence|].
    rewrite bind_run. unfold convert_line at 1, write_json_data.
    rewrite write_running.
    rewrite IH by (eauto using lines_ok_tail; cbn in Hb; lia).
    cbn [map concat]. unfold json_object, record_of.
    rewrite <- !app_assoc. reflexivity.
Qed.

Lemma concat_length_lines (ls : list str) :
  lines_ok ls = true -> length ls <= length (concat ls).
Proof.
  induction ls as [|l rest IH]; intros H; [apply le_n|].
  destruct (take_line_first _ _ H) as [_ Hne].
  cbn [concat length]. rewrite length_app.
  specialize (IH (lines_ok_tail _ _ H)).
  destruct l; [congruence | cbn; lia].
Qed.

(** The state in which the footer is written, for a text made of a header
    line and data lines. *)
Lemma before_footer_running (h : str) (ds : list str) :
  lines_ok (h :: ds) = true ->
  before_footer (open_files (concat (h :: ds)) None)
  = (Returned tt,
     running []
       (json_file_header
        ++ concat (map (fun l => json_object (parse_line h) l ++ lit ", ")
                     ds))).
Proof.
  intros Hok. destruct (take_line_first _ _ Hok) as [Ht _].
  unfold before_footer, _write_json_file_header, get_csv_headers.
  rewrite bind_run.
  change (open_files (concat (h :: ds)) None)
    with (running (concat (h :: ds)) []).
  rewrite write_running. cbn [app]. rewrite !bind_run.
  rewrite (@readline_running _ _ _ _ Ht). unfold ret at 1. rewrite bind_run.
  unfold reads_left at 1.
  apply for_lines_running; [eauto using lines_ok_tail|].
  cbn [pending source_file running].
  pose proof (concat_length_lines ds (lines_ok_tail _ _ Hok)). lia.
Qed.

(** The empty source: the header read is the empty string. *)
Lemma before_footer_empty :
  before_footer (open_files [] None) = (Returned tt, running [] json_file_header).
Proof. reflexivity. Qed.

(** The footer on an open destination of at least two bytes: the last two
    bytes are replaced by the closing fragment. *)
Lemma footer_running (text c : str) (pos : Z) :
  2 <= length c ->
  _write_json_file_footer
    (mkConverter (mkSource text false) (mkSink c pos None false))
  = (Returned tt,
     running text (firstn (length c - 2) c ++ json_file_footer)).
Proof.
  intros Hlen. unfold _write_json_file_footer.
  rewrite bind_run. unfold seek_end at 1. cbn [dest_file dst_closed content
    capacity source_file].
  rewrite bind_run. unfold tell at 1. cbn [dest_file dst_closed position].
  rewrite bind_run. unfold seek_set at 1. cbn [dest_file dst_closed content
    capacity source_file].
  destruct (Z.of_nat (length c) - 2 <? 0)%Z eqn:E;
    [apply Z.ltb_lt in E; lia|].
  unfold write, running. cbn [dest_file dst_closed content capacity
    source_file position].
  replace (Z.to_nat (Z.of_nat (length c) - 2)) with (length c - 2) by lia.
  assert (Hw : write_at c (length c - 2) json_file_footer
               = firstn (length c - 2) c ++ json_file_footer).
  { unfold write_at. replace (length c - 2 - length c) with 0 by lia.
    rewrite skipn_all2 by (cbn; lia). cbn [repeat app].
    now rewrite app_nil_r. }
  rewrite Hw. repeat f_equal.
  rewrite length_app, length_firstn. cbn [length json_file_footer lit]. lia.
Qed.

Lemma concat_sep_join {A} (f : A -> str) (sep : str) (d : A) (ds : list A) :
  concat (map (fun l => f l ++ sep) (d :: ds))
  = Py.join sep (map f (d :: ds)) ++ sep.
Proof.
  revert d. induction ds as [|d' ds IH]; intros d.
  - cbn. now rewrite app_nil_r.
  - cbn [map] in *. rewrite join_cons. cbn [concat] in *. rewrite IH.
    now rewrite <- !app_assoc.
Qed.

Lemma firstn_drop_two (body : str) (a b : char) :
  firstn (length (body ++ [a; b]) - 2) (body ++ [a; b]) = body.
Proof.
  rewrite length_app. cbn [length].
  replace (length body + 2 - 2) with (length body) by lia.
  rewrite firstn_app, Nat.sub_diag, firstn_all. cbn. apply app_nil_r.
Qed.

(** With at least one data line the whole conversion returns and leaves the
    opening fragment, the objects of the data lines separated by [", "],
    and the closing fragment. *)
Lemma convert_data_records (h d : str) (ds : list str) :
  lines_ok (h :: d :: ds) = true ->
  _convert_data (open_files (concat (h :: d :: ds)) None)
  = (Returned tt,
     running []
       (json_file_header
        ++ Py.join (lit ", ") (map (json_object (parse_line h)) (d :: ds))
        ++ json_file_footer)).
Proof.
  intros Hok. rewrite convert_data_split, bind_run.
  rewrite (before_footer_running _ _ Hok).
  rewrite concat_sep_join.
  unfold running at 1. rewrite footer_running.
  - rewrite app_assoc. change (lit ", ") with [comma; space] at 2.
    rewrite firstn_drop_two, <- app_assoc. reflexivity.
  - rewrite !length_app. cbn. lia.
Qed.

(** *** What the methods never do *)

Lemma keeps_flags_bind {A B} (m : M A) (k : A -> M B) :
  keeps_flags m -> (forall a, keeps_flags (k a)) -> keeps_flags (bind m k).
Proof.
  intros Hm Hk self. rewrite bind_run. specialize (Hm self).
  destruct (m self) as [[a|e|] s1]; cbn [snd] in *; try exact Hm.
  rewrite Hk. exact Hm.
Qed.

Lemma halts_bind {A B} (m : M A) (k : A -> M B) :
  halts m -> (forall a, halts (k a)) -> halts (bind m k).
Proof.
  intros Hm Hk self. rewrite bind_run. specialize (Hm self).
  destruct (m self) as [[a|e|] s1]; cbn [fst] in *;
    [apply Hk | discriminate | congruence].
Qed.

Lemma keeps_source_bind {A B} (m : M A) (k : A -> M B) :
  keeps_source m -> (forall a, keeps_source (k a)) -> keeps_source (bind m k).
Proof.
  intros Hm Hk self. rewrite bind_run. specialize (Hm self).
  destruct (m self) as [[a|e|] s1]; cbn [snd] in *; try exact Hm.
  rewrite Hk. exact Hm.
Qed.

Lemma write_facts (data : str) :
  keeps_flags (write data) /\ keeps_source (write data) /\ halts (write data).
Proof.
  repeat split; intros [s [c pos cap closed]]; unfold write; cbn;
    destruct closed; try reflexivity; try discriminate;
    case_if; try reflexivity; discriminate.
Qed.

Lemma readline_facts : keeps_flags readline /\ halts readline.
Proof.
  split; intros [[p closed] d]; unfold readline; cbn;
    destruct closed; try reflexivity; try discriminate;
    destruct (take_line p); try reflexivity; discriminate.
Qed.

Lemma seek_facts :
  (keeps_flags seek_end /\ halts seek_end)
  /\ (keeps_flags tell /\ halts tell)
  /\ forall offset, keeps_flags (seek_set offset) /\ halts (seek_set offset).
Proof.
  repeat split; intros [s [c pos cap closed]];
    unfold seek_end, tell, seek_set; cbn;
    destruct closed; try reflexivity; try discriminate;
    case_if; try reflexivity; discriminate.
Qed.

Lemma footer_facts :
  keeps_flags _write_json_file_footer /\ halts _write_json_file_footer.
Proof.
  destruct seek_facts as ((F1 & H1) & (F2 & H2) & F3).
  unfold _write_json_file_footer. split.
  - apply keeps_flags_bind; [exact F1 | intros _].
    apply keeps_flags_bind; [exact F2 | intros pos].
    apply keeps_flags_bind; [apply F3 | intros _; apply write_facts].
  - apply halts_bind; [exact H1 | intros _].
    apply halts_bind; [exact H2 | intros pos].
    apply halts_bind; [apply F3 | intros _; apply write_facts].
Qed.

Lemma convert_line_facts (headers : Line) (line : str) :
  keeps_flags (convert_line headers line)
  /\ keeps_source (convert_line headers line)
  /\ halts (convert_line headers line).
Proof. apply write_facts. Qed.

Lemma for_lines_keeps_flags (body : str -> M unit) :
  (forall l, keeps_flags (body l)) ->
  forall budget, keeps_flags (for_source_file_lines budget body).
Proof.
  intros Hbody. induction budget as [|budget IH]; [intros self; reflexivity|].
  cbn [for_source_file_lines]. apply keeps_flags_bind.
  - apply readline_facts.
  - intros [|c l]; [intros self; reflexivity|].
    apply keeps_flags_bind; [apply Hbody | intros _; exact IH].
Qed.

Lemma take_line_app (p l r : str) :
  take_line p = (l, r) -> p = l ++ r.
Proof.
  revert l r. induction p as [|x p IH]; intros l r H; cbn [take_line] in H.
  - injection H as <- <-. reflexivity.
  - destruct (x =? nl)%N.
    + injection H as <- <-. reflexivity.
    + destruct (take_line p) as [l' r'] eqn:E. injection H as <- <-.
      cbn [app]. f_equal. now apply IH.
Qed.

Lemma take_line_shorter (p : str) (c : char) (l r : str) :
  take_line p = (c :: l, r) -> length r < length p.
Proof.
  intros H. apply take_line_app in H. subst p.
  rewrite length_app. cbn. lia.
Qed.

(** The loop over the lines ends within its budget: every read but the
    last takes at least one character. *)
Lemma for_lines_halts (body : str -> M unit) :
  (forall l, halts (body l)) -> (forall l, keeps_source (body l)) ->
  forall budget self,
    length (pending (source_file self)) < budget ->
    fst (for_source_file_lines budget body self) <> Exhausted.
Proof.
  intros Hh Hs. induction budget as [|budget IH]; intros self Hlen; [lia|].
  cbn [for_source_file_lines]. rewrite bind_run.
  destruct self as [[p closed] d]. unfold readline.
  cbn [source_file src_closed pending dest_file] in *.
  destruct closed; [discriminate|].
  destruct (take_line p) as [[|c l] r] eqn:E; [discriminate|].
  apply take_line_shorter in E. rewrite bind_run.
  specialize (Hh (c :: l) (mkConverter (mkSource r false) d)).
  specialize (Hs (c :: l) (mkConverter (mkSource r false) d)).
  destruct (body (c :: l) _) as [[[]|e|] s1]; cbn [fst snd] in *;
    [|discriminate|congruence].
  apply IH. rewrite Hs. cbn. lia.
Qed.

Lemma convert_data_keeps_flags : keeps_flags _convert_data.
Proof.
  unfold _convert_data.
  apply keeps_flags_bind; [apply write_facts | intros _].
  apply keeps_flags_bind.
  { apply keeps_flags_bind; [apply readline_facts | intros l self].
    reflexivity. }
  intros headers. apply keeps_flags_bind; [intros self; reflexivity|].
  intros budget. apply keeps_flags_bind; [|intros _; apply footer_facts].
  apply for_lines_keeps_flags. intros l.
  apply (convert_line_facts headers l).
Qed.

(** [_convert_data] never runs out of its budget of reads. *)
Lemma convert_data_within_budget : halts _convert_data.
Proof.
  unfold _convert_data.
  apply halts_bind; [apply write_facts | intros _].
  apply halts_bind.
  { apply halts_bind; [apply readline_facts | intros l self]. discriminate. }
  intros headers self. rewrite bind_run. unfold reads_left at 1.
  rewrite bind_run.
  pose proof (@for_lines_halts (convert_line headers)
                (fun l => proj2 (proj2 (convert_line_facts headers l)))
                (fun l => proj1 (proj2 (convert_line_facts headers l)))
                (S (length (pending (source_file self)))) self
                (Nat.lt_succ_diag_r _)) as H.
  change (fun line : str =>
            let parsed_line := parse_line line in
            write_json_data headers parsed_line)
    with (convert_line headers).
  destruct (for_source_file_lines _ _ self) as [[[]|e|] s1]; cbn [fst] in *;
    [apply footer_facts | discriminate | congruence].
Qed.

(** *** The framing of the document *)

Example convert_scenario :
  convert (open_files (concat scenario) None)
  = (Returned tt,
     mkConverter (mkSource [] true)
       (mkSink scenario_document (Z.of_nat (length scenario_document)) None
          true)).
Proof. reflexivity. Qed.

(** With [N >= 1] data lines [convert] returns, closes the files and leaves
    a document with exactly [N] objects between the two fragments, separated
    by [", "] with no separator before the closing bracket. *)
Lemma convert_records (h d : str) (ds : list str) :
  lines_ok (h :: d :: ds) = true ->
  let objects := map (json_object (parse_line h)) (d :: ds) in
  length objects = length (d :: ds)
  /\ convert (open_files (concat (h :: d :: ds)) None)
     = (Returned tt,
        let doc := json_file_header ++ Py.join (lit ", ") objects
                   ++ json_file_footer in
        mkConverter (mkSource [] true)
          (mkSink doc (Z.of_nat (length doc)) None true)).
Proof.
  intros Hok objects. split; [apply length_map|].
  unfold convert. rewrite bind_run, (convert_data_records _ _ _ Hok).
  reflexivity.
Qed.

(** C3, at the input on which it fails.  For a source with a header line
    and no data line the conversion returns, but the sink holds the opening
    fragment cut by two bytes followed by the closing fragment, which is
    not the document with an empty array. *)
Theorem convert_header_only :
  convert (open_files header_only None)
  = (Returned tt,
     mkConverter (mkSource [] true) (mkSink corrupt_document 10 None true))
  /\ corrupt_document <> empty_document.
Proof. split; [reflexivity | discriminate]. Qed.

(** C4. The footer is written two bytes before the end of the sink, over
    its last two bytes.  After at least one data line these two bytes are
    the separator [", "] of the last record; with no data line they are the
    last two bytes of the opening fragment, and the document of a
    header-only source is the opening fragment without its space and
    bracket, followed by the closing fragment. *)
Theorem footer_overwrites_last_two :
  (forall text c pos,
     2 <= length c ->
     (seek_end ;; p <- tell ;; seek_set (p - 2))
       (mkConverter (mkSource text false) (mkSink c pos None false))
     = (Returned tt,
        mkConverter (mkSource text false)
          (mkSink c (Z.of_nat (length c) - 2) None false))
     /\ _write_json_file_footer
          (mkConverter (mkSource text false) (mkSink c pos None false))
        = (Returned tt,
           running text (firstn (length c - 2) c ++ json_file_footer)))
  /\ (forall h d ds,
        lines_ok (h :: d :: ds) = true ->
        exists body,
          before_footer (open_files (concat (h :: d :: ds)) None)
          = (Returned tt, running [] (body ++ lit ", "))
          /\ _convert_data (open_files (concat (h :: d :: ds)) None)
             = (Returned tt, running [] (body ++ json_file_footer)))
  /\ (forall h,
        lines_ok [h] = true ->
        before_footer (open_files h None)
        = (Returned tt, running [] json_file_header)
        /\ _convert_data (open_files h None)
           = (Returned tt, running [] corrupt_document))
  /\ _convert_data (open_files [] None)
     = (Returned tt, running [] corrupt_document).
Proof.
  split; [|split; [|split; [|reflexivity]]].
  - intros text c pos Hlen. split; [|now apply footer_running].
    unfold bind, seek_end, tell, seek_set. cbn.
    destruct (Z.of_nat (length c) - 2 <? 0)%Z eqn:E;
      [apply Z.ltb_lt in E; lia | reflexivity].
  - intros h d ds Hok.
    exists (json_file_header
            ++ Py.join (lit ", ") (map (json_object (parse_line h)) (d :: ds))).
    split.
    + rewrite (before_footer_running _ _ Hok), concat_sep_join, app_assoc.
      reflexivity.
    + rewrite (convert_data_records _ _ _ Hok), app_assoc. reflexivity.
  - intros h Hok.
    pose proof (before_footer_running _ _ Hok) as Hb.
    cbn [concat map] in Hb. rewrite !app_nil_r in Hb.
    split; [exact Hb|].
    rewrite convert_data_split, bind_run, Hb.
    unfold running at 1. rewrite footer_running by (cbn; lia). reflexivity.
Qed.

Lemma footer_overwrites_last_two_witness :
  _convert_data (open_files header_only None)
  = (Returned tt, running [] corrupt_document)
  /\ exists body,
       before_footer (open_files (concat scenario) None)
       = (Returned tt, running [] (body ++ lit ", "))
       /\ _convert_data (open_files (concat scenario) None)
          = (Returned tt, running [] (body ++ json_file_footer)).
Proof.
  destruct footer_overwrites_last_two as (_ & Hsome & Hnone & _).
  split.
  - apply (Hnone header_only). reflexivity.
  - apply (Hsome (lit "name,age" ++ [nl]) (lit "Alice,30" ++ [nl])
             [[dq] ++ lit "Bob, Jr." ++ [dq] ++ lit ",25" ++ [nl]]).
    reflexivity.
Defined.

(** *** Closing the files *)

(** C6 as stated fails: when the write of a record raises, [convert]
    raises too and both files are still open. *)
Lemma convert_raise_leaves_open :
  _write_json_file_header small_device
  = (Returned tt,
     mkConverter (mkSource (lit "a" ++ [nl] ++ lit "b" ++ [nl]) false)
       (mkSink json_file_header 10 (Some 12) false))
  /\ convert small_device
     = (Raised OSError,
        mkConverter (mkSource [] false)
          (mkSink json_file_header 10 (Some 12) false))
  /\ src_closed (source_file (snd (convert small_device))) = false
  /\ dst_closed (dest_file (snd (convert small_device))) = false.
Proof. repeat split. Qed.

(** C6, as amended.  [convert] closes both files when [_convert_data]
    returns; when [_convert_data] raises, [convert] raises the same
    exception without calling [_close_files], and no file has been closed;
    there is no third outcome. *)
Theorem convert_closes_on_return :
  (forall self self1,
     _convert_data self = (Returned tt, self1) ->
     exists self2,
       convert self = (Returned tt, self2)
       /\ flags self2 = (true, true)
       /\ content (dest_file self2) = content (dest_file self1))
  /\ (forall self e self1,
        _convert_data self = (Raised e, self1) ->
        convert self = (Raised e, self1) /\ flags self1 = flags self)
  /\ (forall self, fst (_convert_data self) <> Exhausted).
Proof.
  split; [|split].
  - intros self self1 H. unfold convert. rewrite bind_run, H.
    eexists. split; [reflexivity|]. split; reflexivity.
  - intros self e self1 H. unfold convert. rewrite bind_run, H.
    split; [reflexivity|].
    pose proof (convert_data_keeps_flags self) as F. rewrite H in F. exact F.
  - exact convert_data_within_budget.
Qed.

Lemma convert_closes_on_return_witness :
  (exists self2,
     convert (open_files (concat scenario) None) = (Returned tt, self2)
     /\ flags self2 = (true, true))
  /\ (exists self1,
        convert small_device = (Raised OSError, self1)
        /\ flags self1 = (false, false)).
Proof.
  destruct convert_closes_on_return as (Hret & Hraise & _).
  split.
  - destruct (Hret (open_files (concat scenario) None)
                (snd (_convert_data (open_files (concat scenario) None)))
                eq_refl) as (self2 & H1 & H2 & _).
    exists self2. split; assumption.
  - destruct (Hraise small_device OSError (snd (_convert_data small_device))
                eq_refl) as (H1 & H2).
    eexists. split; [exact H1 | exact H2].
Defined.

End Conversion.

(** ** Normalization: further properties *)

Section NormalizeMore.

Import NormalizeSpec.

Lemma replace_double_quotes (v : str) :
  Py.replace v [dq] [dq; dq] = double_quotes v.
Proof.
  unfold Py.replace. induction v as [|c t IH]; [reflexivity|].
  rewrite replace_from_here, startswith_head. cbn [length Nat.sub].
  cbn [double_quotes flat_map]. fold (double_quotes t). rewrite IH.
  destruct (c =? dq)%N eqn:E; [|reflexivity].
  apply N.eqb_eq in E. subst c. reflexivity.
Qed.

Lemma unescape_double_quotes (v : str) :
  unescape (double_quotes v) = v.
Proof.
  induction v as [|c t IH]; [reflexivity|].
  cbn [double_quotes flat_map]. fold (double_quotes t).
  destruct (c =? dq)%N eqn:E.
  - apply N.eqb_eq in E. subst c. cbn [app].
    rewrite unescape_cons2, N.eqb_refl. cbn [andb]. now rewrite IH.
  - cbn [app]. destruct (double_quotes t) as [|c' t'] eqn:D.
    + cbn in IH. subst t. reflexivity.
    + rewrite unescape_cons2, E. cbn [andb]. now rewrite IH.
Qed.

Lemma quote_field_eq (v : str) :
  quote_field v = dq :: double_quotes v ++ [dq].
Proof. unfold quote_field. now rewrite replace_double_quotes. Qed.

Lemma normalize_value_quote_field_eq (v : str) :
  normalize_value (quote_field v) = v.
Proof.
  rewrite normalize_value_steps, quote_field_eq. unfold trim.
  rewrite strip_id.
  - cbn [unquote]. rewrite N.eqb_refl.
    change (dq :: double_quotes v ++ [dq])
      with ((dq :: double_quotes v) ++ [dq]).
    rewrite last_last, N.eqb_refl. cbn [andb].
    rewrite removelast_last. apply unescape_double_quotes.
  - intros c H. injection H as <-. reflexivity.
  - intros c H.
    change (dq :: double_quotes v ++ [dq])
      with ((dq :: double_quotes v) ++ [dq]) in H.
    rewrite rev_app_distr in H. injection H as <-. reflexivity.
Qed.

Lemma lstrip_shrinks (v : str) :
  length (Py.lstrip v) <= length v /\ incl (Py.lstrip v) v.
Proof.
  induction v as [|c t [IH1 IH2]]; [split; [apply le_n | apply incl_refl]|].
  cbn [Py.lstrip]. destruct (Py.isspace c).
  - split; [cbn; lia | apply incl_tl, IH2].
  - split; [apply le_n | apply incl_refl].
Qed.

Lemma strip_shrinks (v : str) :
  length (Py.strip v) <= length v /\ incl (Py.strip v) v.
Proof.
  unfold Py.strip, Py.rstrip.
  destruct (lstrip_shrinks v) as [L1 I1].
  destruct (lstrip_shrinks (rev (Py.lstrip v))) as [L2 I2].
  rewrite length_rev in *. split; [lia|].
  intros x Hx. apply I1, in_rev, I2, in_rev. exact Hx.
Qed.

Lemma unquote_shrinks (v : str) :
  length (unquote v) <= length v /\ incl (unquote v) v.
Proof.
  destruct v as [|c t]; [split; [apply le_n | apply incl_refl]|].
  unfold unquote. destruct ((c =? dq)%N && (last (c :: t) 0 =? dq)%N);
    [|split; [apply le_n | apply incl_refl]].
  destruct t as [|x t] using rev_ind; [split; [cbn; lia | intros y []]|].
  rewrite removelast_last. split.
  - cbn. rewrite length_app. lia.
  - intros y Hy. right. apply in_or_app. now left.
Qed.

Lemma unescape_shrinks (v : str) :
  length (unescape v) <= length v /\ incl (unescape v) v.
Proof.
  enough (H : forall n v, length v <= n ->
            length (unescape v) <= length v /\ incl (unescape v) v)
    by (apply (H (length v)); lia).
  induction n as [|n IH]; intros [|c [|c' t]] Hn; cbn [length] in Hn;
    try lia; try (split; [apply le_n | apply incl_refl]).
  rewrite unescape_cons2. destruct ((c =? dq)%N && (c' =? dq)%N) eqn:E.
  - apply andb_true_iff in E. destruct E as [E1 _]. apply N.eqb_eq in E1.
    subst c. destruct (IH t ltac:(lia)) as [L I]. split.
    + cbn [length]. lia.
    + intros y [<-|Hy]; [now left | right; right; apply I, Hy].
  - destruct (IH (c' :: t) ltac:(cbn; lia)) as [L I]. split.
    + cbn [length] in *. lia.
    + intros y [<-|Hy]; [now left | right; apply I, Hy].
Qed.

(** X1. [normalize_value] undoes the quoting convention on every value,
    whatever it holds: whitespace at the ends, commas, quotes,
    newlines. *)
Theorem normalize_value_quote_field :
  forall v, normalize_value (quote_field v) = v.
Proof. exact normalize_value_quote_field_eq. Qed.

Lemma normalize_value_shrinks_both (v : str) :
  length (normalize_value v) <= length v /\ incl (normalize_value v) v.
Proof.
  rewrite normalize_value_steps. unfold trim.
  destruct (strip_shrinks v) as [L1 I1].
  destruct (unquote_shrinks (Py.strip v)) as [L2 I2].
  destruct (unescape_shrinks (unquote (Py.strip v))) as [L3 I3].
  split; [lia|]. intros x Hx. apply I1, I2, I3, Hx.
Qed.

(** X2. [normalize_value] only removes characters: its result is never
    longer than its argument, and holds no character that the argument
    does not hold. *)
Theorem normalize_value_shrinks :
  forall v, length (normalize_value v) <= length v
            /\ forall c, In c (normalize_value v) -> In c v.
Proof. exact normalize_value_shrinks_both. Qed.

End NormalizeMore.

(** ** Line parsing: further properties *)

Section ParseLineMore.

Import NormalizeSpec LineSpec.

Lemma field_slice (pre suf : str) (start : nat) :
  start <= length pre ->
  firstn (length pre - start) (skipn start (pre ++ suf)) = skipn start pre.
Proof.
  intros H. rewrite skipn_app. replace (start - length pre) with 0 by lia.
  cbn [skipn]. rewrite firstn_app, length_skipn.
  rewrite firstn_all2 by (rewrite length_skipn; lia).
  replace (length pre - start - (length pre - start)) with 0 by lia.
  cbn [firstn]. apply app_nil_r.
Qed.

Lemma skipn_snoc (pre : str) (c : char) (start : nat) :
  start <= length pre -> skipn start (pre ++ [c]) = skipn start pre ++ [c].
Proof.
  intros H. rewrite skipn_app. replace (start - length pre) with 0 by lia.
  reflexivity.
Qed.

(** The fields of the specification are the fields the machine reads. *)
Lemma fields_split_from (line : str) :
  forall (suf pre : str) (start : nat),
    line = pre ++ suf -> start <= length pre ->
    fields line start
      (filter (is_separator line) (seq (length pre) (length suf)))
    = split_from (Nat.odd (count_occ N.eq_dec pre dq))
        (rev (skipn start pre)) suf.
Proof.
  induction suf as [|c suf IH]; intros pre start Hline Hle.
  - cbn [length seq filter fields split_from]. rewrite rev_involutive.
    rewrite Hline, app_nil_r. reflexivity.
  - cbn [length seq filter split_from].
    assert (Hline' : line = (pre ++ [c]) ++ suf)
      by (rewrite <- app_assoc; exact Hline).
    assert (Hseq : S (length pre) = length (pre ++ [c]))
      by (rewrite length_app; simpl; lia).
    assert (Hsep : is_separator line (length pre)
                   = (c =? comma)%N
                     && negb (Nat.odd (count_occ N.eq_dec pre dq)))
      by (rewrite Hline, is_separator_at, Nat.negb_odd; reflexivity).
    rewrite Hsep, Hseq.
    destruct ((c =? comma)%N && negb (Nat.odd (count_occ N.eq_dec pre dq)))
      eqn:E.
    + apply andb_true_iff in E. destruct E as [Ec Eo].
      apply N.eqb_eq in Ec. apply negb_true_iff in Eo.
      cbn [fields]. rewrite Hseq.
      replace (firstn (length pre - start) (skipn start line))
        with (skipn start pre)
        by (rewrite Hline; symmetry; apply field_slice; exact Hle).
      rewrite rev_involutive.
      rewrite (IH (pre ++ [c]) (length (pre ++ [c])) Hline' (le_n _)).
      rewrite skipn_all, count_quotes_snoc, Ec. cbn [N.eqb rev].
      change (comma =? dq)%N with false. cbv iota.
      rewrite Nat.add_0_r, Eo. reflexivity.
    + rewrite (IH (pre ++ [c]) start Hline') by (rewrite <- Hseq; lia).
      rewrite skipn_snoc, rev_app_distr by exact Hle. cbn [rev app].
      rewrite count_quotes_snoc. destruct (c =? dq)%N.
      * rewrite Nat.add_1_r, Nat.odd_succ, <- Nat.negb_odd. reflexivity.
      * rewrite Nat.add_0_r. reflexivity.
Qed.

Lemma split_line_machine (line : str) :
  split_line line = split_from false [] line.
Proof. exact (@fields_split_from line line [] 0 eq_refl (le_n 0)). Qed.

(** *** Whitespace at the end of the line *)

Lemma lstrip_app (x y : str) :
  Py.lstrip (x ++ y)
  = if forallb Py.isspace x then Py.lstrip y else Py.lstrip x ++ y.
Proof.
  induction x as [|c x IH]; [reflexivity|].
  cbn [app Py.lstrip forallb]. destruct (Py.isspace c); [exact IH|reflexivity].
Qed.

Lemma strip_snoc_space (f : str) (w : char) :
  Py.isspace w = true -> Py.strip (f ++ [w]) = Py.strip f.
Proof.
  intros Hw. unfold Py.strip. rewrite lstrip_app.
  destruct (forallb Py.isspace f) eqn:E.
  - cbn [Py.lstrip]. rewrite Hw.
    pose proof (lstrip_app f []) as H. rewrite app_nil_r, E in H.
    rewrite H. reflexivity.
  - unfold Py.rstrip. rewrite rev_app_distr. cbn [rev app Py.lstrip].
    now rewrite Hw.
Qed.

Lemma normalize_value_snoc_space (f : str) (w : char) :
  Py.isspace w = true -> normalize_value (f ++ [w]) = normalize_value f.
Proof. intros Hw. unfold normalize_value. now rewrite strip_snoc_space. Qed.

Lemma split_from_snoc_space (w : char) :
  Py.isspace w = true ->
  forall x odd cur,
    map normalize_value (split_from odd cur (x ++ [w]))
    = map normalize_value (split_from odd cur x).
Proof.
  intros Hw.
  assert (Hc : (w =? comma)%N = false).
  { destruct (w =? comma)%N eqn:E; [|reflexivity].
    apply N.eqb_eq in E. subst w. discriminate. }
  induction x as [|c x IH]; intros odd cur.
  - cbn [app split_from]. rewrite Hc. cbn [andb map rev].
    now rewrite normalize_value_snoc_space.
  - cbn [app split_from]. destruct ((c =? comma)%N && negb odd).
    + cbn [map]. now rewrite IH.
    + apply IH.
Qed.

(** The removal of the newline changes nothing in the result: the last
    field is stripped anyway. *)
Lemma parse_line_machine (s : str) :
  parse_line s = map normalize_value (split_from false [] s).
Proof.
  rewrite parse_line_split, split_line_machine.
  destruct s as [|c s] using rev_ind; [reflexivity|]. clear IHs.
  rewrite chomp_app. destruct (c =? nl)%N eqn:E; [|reflexivity].
  apply N.eqb_eq in E. subst c. symmetry.
  now apply split_from_snoc_space.
Qed.

Lemma parse_line_snoc_space (s : str) (w : char) :
  Py.isspace w = true -> parse_line (s ++ [w]) = parse_line s.
Proof.
  intros Hw. rewrite !parse_line_machine. now apply split_from_snoc_space.
Qed.

(** X3. A whitespace character at the end of the line, a newline or any
    other, does not change the fields: in particular a line parses the
    same with and without its final newline, and with several of them. *)
Theorem parse_line_trailing_space (s : str) (w : char) :
  Py.isspace w = true -> parse_line (s ++ [w]) = parse_line s.
Proof. apply parse_line_snoc_space. Qed.

Lemma parse_line_trailing_space_witness :
  Py.isspace nl = true
  /\ parse_line (lit "a, b" ++ [nl; nl]) = parse_line (lit "a, b" ++ [nl]).
Proof.
  split; [reflexivity|].
  apply (@parse_line_trailing_space (lit "a, b" ++ [nl]) nl). reflexivity.
Defined.

(** *** Composition at a separator *)

Lemma split_from_comma :
  forall (x : str) (odd : bool) (cur b : str),
    xorb odd (Nat.odd (count_occ N.eq_dec x dq)) = false ->
    split_from odd cur (x ++ comma :: b)
    = split_from odd cur x ++ split_from false [] b.
Proof.
  induction x as [|c x IH]; intros odd cur b H.
  - cbn in H. rewrite xorb_false_r in H. subst odd. reflexivity.
  - cbn [app split_from]. cbn [count_occ] in H.
    destruct ((c =? comma)%N && negb odd) eqn:E.
    + apply andb_true_iff in E. destruct E as [Ec Eo].
      apply N.eqb_eq in Ec. subst c.
      destruct (N.eq_dec comma dq) as [D|_]; [discriminate|].
      cbn [app]. f_equal. apply IH. exact H.
    + apply IH. destruct (N.eq_dec c dq) as [->|D].
      * rewrite N.eqb_refl. rewrite Nat.odd_succ, <- Nat.negb_odd in H.
        destruct odd, (Nat.odd (count_occ N.eq_dec x dq)); cbn in *;
          congruence.
      * apply N.eqb_neq in D. rewrite D. exact H.
Qed.

Lemma parse_line_comma (a b : str) :
  Nat.even (count_occ N.eq_dec a dq) = true ->
  parse_line (a ++ comma :: b) = parse_line a ++ parse_line b.
Proof.
  intros H. rewrite !parse_line_machine, split_from_comma, map_app.
  - reflexivity.
  - rewrite <- Nat.negb_even, H. reflexivity.
Qed.

(** X4. A comma preceded by an even number of double quotes cuts the line
    in two lines that are parsed on their own: the fields of the whole are
    the fields of the part before the comma followed by the fields of the
    part after it. *)
Theorem parse_line_comma_compose (a b : str) :
  Nat.even (count_occ N.eq_dec a dq) = true ->
  parse_line (a ++ [comma] ++ b) = parse_line a ++ parse_line b.
Proof. apply parse_line_comma. Qed.

Lemma parse_line_comma_compose_witness :
  let a := [dq] ++ lit "x,y" ++ [dq] in
  let b := lit " z " ++ [nl] in
  Nat.even (count_occ N.eq_dec a dq) = true
  /\ parse_line (a ++ [comma] ++ b) = [lit "x,y"; lit "z"].
Proof.
  intros a b. split; [reflexivity|].
  rewrite (@parse_line_comma_compose a b eq_refl). reflexivity.
Defined.

(** *** Reading back what a writer quoted *)

Lemma split_from_inside (v : str) :
  forall cur rest,
    split_from true cur (double_quotes v ++ rest)
    = split_from true (rev (double_quotes v) ++ cur) rest.
Proof.
  induction v as [|c v IH]; intros cur rest; [reflexivity|].
  cbn [double_quotes flat_map]. fold (double_quotes v).
  destruct (c =? dq)%N eqn:E.
  - cbn [app split_from]. change (dq =? comma)%N with false.
    rewrite N.eqb_refl. cbn [andb negb]. rewrite IH.
    cbn [rev]. rewrite <- !app_assoc. reflexivity.
  - cbn [app split_from]. rewrite E, andb_false_r, IH.
    cbn [rev]. rewrite <- app_assoc. reflexivity.
Qed.

Lemma split_from_quote_field (v : str) :
  split_from false [] (quote_field v) = [quote_field v].
Proof.
  rewrite quote_field_eq. cbn [split_from].
  rewrite split_from_inside. cbn [split_from rev].
  change (dq =? comma)%N with false. cbn [andb].
  rewrite rev_app_distr, rev_involutive. reflexivity.
Qed.

Lemma double_quotes_cons (c : char) (v : str) :
  double_quotes (c :: v)
  = (if (c =? dq)%N then [dq; dq] else [c]) ++ double_quotes v.
Proof. reflexivity. Qed.

Lemma count_double_quotes (v : str) :
  count_occ N.eq_dec (double_quotes v) dq = 2 * count_occ N.eq_dec v dq.
Proof.
  induction v as [|c v IH]; [reflexivity|].
  rewrite double_quotes_cons, count_occ_app. unfold char in *.
  rewrite IH. cbn [count_occ].
  destruct (N.eq_dec c dq) as [->|D].
  - rewrite N.eqb_refl. cbn [count_occ].
    destruct (N.eq_dec dq dq); [lia | congruence].
  - pose proof D as D'. apply N.eqb_neq in D'. rewrite D'. cbn [count_occ].
    destruct (N.eq_dec c dq); [congruence | lia].
Qed.

Lemma quote_field_even (v : str) :
  Nat.even (count_occ N.eq_dec (quote_field v) dq) = true.
Proof.
  rewrite quote_field_eq. cbn [count_occ].
  destruct (N.eq_dec dq dq) as [_|D]; [|congruence].
  rewrite count_occ_app, count_double_quotes. cbn [count_occ].
  destruct (N.eq_dec dq dq) as [_|D]; [|congruence].
  replace (S (2 * count_occ N.eq_dec v dq + 1))
    with (2 * (count_occ N.eq_dec v dq + 1)) by lia.
  rewrite Nat.even_mul. reflexivity.
Qed.

Lemma parse_line_quoted (v : str) (vs : list str) :
  parse_line (Py.join [comma] (map quote_field (v :: vs))) = v :: vs.
Proof.
  revert v. induction vs as [|v' vs IH]; intros v.
  - cbn [map Py.join]. rewrite parse_line_machine, split_from_quote_field.
    cbn [map]. now rewrite normalize_value_quote_field_eq.
  - cbn [map]. rewrite join_cons. cbn [app].
    rewrite parse_line_comma by apply quote_field_even.
    change (quote_field v' :: map quote_field vs)
      with (map quote_field (v' :: vs)).
    rewrite IH, parse_line_machine, split_from_quote_field. cbn [map app].
    now rewrite normalize_value_quote_field_eq.
Qed.

(** X5. Round trip with the quoting convention: when every value of a
    non-empty record is written between double quotes with its own double
    quotes doubled, and the results are joined by commas, [parse_line]
    gives back the values, whatever they hold, with or without a final
    newline. *)
Theorem parse_line_quoted_round_trip (v : str) (vs : list str) :
  parse_line (Py.join [comma] (map quote_field (v :: vs))) = v :: vs
  /\ parse_line (Py.join [comma] (map quote_field (v :: vs)) ++ [nl])
     = v :: vs.
Proof.
  split; [apply parse_line_quoted|].
  rewrite parse_line_snoc_space by reflexivity. apply parse_line_quoted.
Qed.

(** *** Lines without quotes *)

Lemma split_from_no_comma (x : str) :
  ~ In comma x -> forall odd cur, split_from odd cur x = [rev cur ++ x].
Proof.
  induction x as [|c x IH]; intros H odd cur.
  - cbn. now rewrite app_nil_r.
  - cbn [split_from]. destruct (c =? comma)%N eqn:E.
    + apply N.eqb_eq in E. subst c. destruct H. now left.
    + cbn [andb]. rewrite IH by (intros I; apply H; now right).
      cbn [rev]. rewrite <- app_assoc. reflexivity.
Qed.

Lemma normalize_value_no_quote (v : str) :
  ~ In dq v -> normalize_value v = Py.strip v.
Proof.
  intros H. rewrite normalize_value_steps. unfold trim.
  assert (H' : ~ In dq (Py.strip v))
    by (intros I; apply H; apply (strip_shrinks v); exact I).
  rewrite unquote_id, unescape_id; [reflexivity | |].
  - intros a b E. apply H'. rewrite E. apply in_or_app. right. now left.
  - intros [E _]. apply H'. destruct (Py.strip v); [discriminate|].
    injection E as ->. now left.
Qed.

Lemma parse_line_plain (v : str) (vs : list str) :
  (forall f, In f (v :: vs) -> ~ In comma f /\ ~ In dq f) ->
  parse_line (Py.join [comma] (v :: vs)) = map Py.strip (v :: vs).
Proof.
  revert v. induction vs as [|v' vs IH]; intros v H.
  - destruct (H v (or_introl eq_refl)) as [Hc Hq].
    cbn [Py.join map]. rewrite parse_line_machine, split_from_no_comma by
      exact Hc.
    cbn [rev app map]. now rewrite normalize_value_no_quote.
  - destruct (H v (or_introl eq_refl)) as [Hc Hq].
    rewrite join_cons. cbn [app].
    rewrite parse_line_comma.
    + rewrite IH by (intros f I; apply H; now right).
      rewrite parse_line_machine, split_from_no_comma by exact Hc.
      cbn [rev app map]. now rewrite normalize_value_no_quote.
    + rewrite (proj1 (count_occ_not_In N.eq_dec v dq) Hq). reflexivity.
Qed.

(** X6. When no field of a non-empty record holds a comma or a double
    quote, the line made of the fields joined by commas parses to the
    fields, each with the whitespace around it stripped. *)
Theorem parse_line_plain_fields (v : str) (vs : list str) :
  (forall f, In f (v :: vs) -> ~ In comma f /\ ~ In dq f) ->
  parse_line (Py.join [comma] (v :: vs)) = map Py.strip (v :: vs).
Proof. apply parse_line_plain. Qed.

Lemma parse_line_plain_fields_witness :
  parse_line (Py.join [comma] [lit " Alice "; lit "30"; lit ""])
  = [lit "Alice"; lit "30"; lit ""].
Proof.
  rewrite (@parse_line_plain_fields (lit " Alice ") [lit "30"; lit ""]).
  - reflexivity.
  - intros f [<-|[<-|[<-|[]]]]; split; cbn; intuition discriminate.
Defined.

(** *** Bounds *)

Lemma split_from_count (s : str) :
  forall odd cur,
    length (split_from odd cur s) <= S (count_occ N.eq_dec s comma)
    /\ (~ In dq s -> odd = false ->
        length (split_from odd cur s) = S (count_occ N.eq_dec s comma)).
Proof.
  induction s as [|c s IH]; intros odd cur; [split; reflexivity|].
  cbn [split_from count_occ].
  destruct (N.eq_dec c comma) as [->|D].
  - rewrite N.eqb_refl. cbn [andb]. change (comma =? dq)%N with false.
    cbv iota. destruct odd; cbn [negb].
    + destruct (IH true (comma :: cur)) as [L _]. split; [lia|].
      discriminate.
    + destruct (IH false []) as [L E]. cbn [length]. split; [lia|].
      intros Hq _. rewrite E; [reflexivity | | reflexivity].
      intros I. apply Hq. now right.
  - pose proof D as D'. apply N.eqb_neq in D'. rewrite D'. cbn [andb].
    destruct (IH (if (c =? dq)%N then negb odd else odd) (c :: cur))
      as [L E].
    split; [exact L|]. intros Hq ->.
    destruct (c =? dq)%N eqn:Eq.
    + apply N.eqb_eq in Eq. subst c. destruct Hq. now left.
    + apply E; [|reflexivity]. intros I. apply Hq. now right.
Qed.

Lemma split_from_nonempty (s : str) :
  forall odd cur, 1 <= length (split_from odd cur s).
Proof.
  induction s as [|c s IH]; intros odd cur; [apply le_n|].
  cbn [split_from]. destruct ((c =? comma)%N && negb odd);
    [cbn [length]; lia | apply IH].
Qed.

Lemma list_sum_cons (n : nat) (l : list nat) :
  list_sum (n :: l) = n + list_sum l.
Proof. reflexivity. Qed.

Lemma split_from_total (s : str) :
  forall odd cur,
    total_length (split_from odd cur s) + length (split_from odd cur s)
    = S (length cur + length s).
Proof.
  unfold total_length.
  induction s as [|c s IH]; intros odd cur.
  - cbn. rewrite length_rev. lia.
  - cbn [split_from]. destruct ((c =? comma)%N && negb odd).
    + cbn [map length]. rewrite list_sum_cons. specialize (IH odd []).
      rewrite length_rev. cbn [length] in *. lia.
    + rewrite IH. cbn [length]. lia.
Qed.

Lemma split_from_incl (s : str) :
  forall odd cur f,
    In f (split_from odd cur s) -> incl f (rev cur ++ s).
Proof.
  induction s as [|c s IH]; intros odd cur f H.
  - cbn in H. destruct H as [<-|[]]. rewrite app_nil_r. apply incl_refl.
  - cbn [split_from] in H. destruct ((c =? comma)%N && negb odd).
    + destruct H as [<-|H].
      * apply incl_appl, incl_refl.
      * apply IH in H. cbn [rev app] in H.
        intros x Hx. apply in_or_app. right. right. apply H, Hx.
    + apply IH in H. cbn [rev] in H. rewrite <- app_assoc in H. exact H.
Qed.

Lemma total_length_normalize (fs : list str) :
  total_length (map normalize_value fs) <= total_length fs.
Proof.
  unfold total_length. induction fs as [|f fs IH]; [apply le_n|].
  cbn [map]. rewrite !list_sum_cons.
  pose proof (proj1 (normalize_value_shrinks_both f)). lia.
Qed.

(** X7. What [parse_line] cannot produce: there is at most one field more
    than the line has commas, and exactly one more when the line has no
    double quote; the fields together with the commas between them are no
    longer than the line; every character of a field is a character of the
    line. *)
Theorem parse_line_bounds (s : str) :
  length (parse_line s) <= 1 + count_occ N.eq_dec s comma
  /\ (~ In dq s -> length (parse_line s) = 1 + count_occ N.eq_dec s comma)
  /\ total_length (parse_line s) + (length (parse_line s) - 1) <= length s
  /\ (forall f c, In f (parse_line s) -> In c f -> In c s).
Proof.
  rewrite parse_line_machine, length_map.
  destruct (split_from_count s false []) as [L E].
  pose proof (split_from_total s false []) as T.
  pose proof (total_length_normalize (split_from false [] s)) as N.
  pose proof (split_from_nonempty s false []) as P.
  cbn [length] in T.
  split; [exact L|]. split; [intros H; now apply E|]. split; [lia|].
  intros f c Hf Hc. apply in_map_iff in Hf. destruct Hf as (g & <- & Hg).
  apply (split_from_incl s false [] g Hg).
  apply (normalize_value_shrinks_both g), Hc.
Qed.

Lemma parse_line_bounds_witness :
  length (parse_line (lit "a, b,c" ++ [nl])) = 3.
Proof.
  destruct (parse_line_bounds (lit "a, b,c" ++ [nl])) as (_ & E & _).
  rewrite E; [reflexivity|].
  cbn. intuition discriminate.
Defined.

End ParseLineMore.

(** ** Records: further properties *)

Section RecordsMore.

Lemma setitem_fresh (d : Py.dict) (k v : str) :
  ~ In k (keys d) -> Py.setitem d k v = d ++ [(k, v)].
Proof.
  induction d as [|[k' v'] d IH]; intros H; [reflexivity|].
  cbn [Py.setitem]. destruct (str_eqb k' k) eqn:E.
  - apply str_eqb_eq in E. subst k'. destruct H. now left.
  - cbn [app]. rewrite IH; [reflexivity|]. intros I. apply H. now right.
Qed.

Lemma fold_put_fresh (ps : list (str * str)) :
  NoDup (map fst ps) ->
  forall d, (forall k, In k (map fst ps) -> ~ In k (keys d)) ->
            fold_left put ps d = d ++ ps.
Proof.
  induction ps as [|[k v] ps IH]; intros ND d H.
  - cbn. now rewrite app_nil_r.
  - cbn [map fst] in ND. apply NoDup_cons_iff in ND. destruct ND as [Hk ND].
    cbn [fold_left]. unfold put at 2. cbn [fst snd].
    rewrite setitem_fresh by (apply H; now left).
    rewrite (IH ND).
    + rewrite <- app_assoc. reflexivity.
    + intros k' I J. unfold keys in J. rewrite map_app in J.
      apply in_app_or in J. destruct J as [J|[<-|[]]].
      * apply (H k'); [now right | exact J].
      * exact (Hk I).
Qed.

Lemma record_of_zip_iff (headers line : Line) :
  record_of headers line = Py.zip headers line
  <-> NoDup (firstn (length line) headers).
Proof.
  rewrite <- zip_keys. split.
  - intros E. rewrite <- E. apply keys_dict_of.
  - intros ND. unfold record_of. rewrite dict_of_fold.
    apply (@fold_put_fresh _ ND []). intros k _ [].
Qed.

(** X8. [write_json_data] writes the JSON text of the record
    [dict(zip(headers, line))].  This record never holds a key twice, and
    it is the list of pairs (header, value) in header order exactly when
    the header names that receive a value are pairwise distinct: in that
    case what is written is the JSON text of that list of pairs. *)
Theorem record_of_distinct_headers (headers line : Line) :
  write_json_data headers line
  = write (Py.json_dumps (record_of headers line) ++ lit ", ")
  /\ (forall text c,
        write_json_data headers line (running text c)
        = (Returned tt,
           running text
             (c ++ Py.json_dumps (record_of headers line) ++ lit ", ")))
  /\ NoDup (keys (record_of headers line))
  /\ (record_of headers line = Py.zip headers line
      <-> NoDup (firstn (length line) headers))
  /\ (NoDup (firstn (length line) headers) ->
      forall text c,
        write_json_data headers line (running text c)
        = (Returned tt,
           running text
             (c ++ Py.json_dumps (Py.zip headers line) ++ lit ", "))).
Proof.
  split; [reflexivity|].
  split; [intros text c; apply write_json_data_running|].
  split; [apply keys_dict_of|]. split; [apply record_of_zip_iff|].
  intros ND text c. rewrite write_json_data_running.
  now rewrite (proj2 (record_of_zip_iff headers line) ND).
Qed.

Lemma record_of_distinct_headers_witness :
  let headers := [lit "name"; lit "age"] in
  let line := [lit "Bob"; lit "25"; lit "extra"] in
  NoDup (firstn (length line) headers)
  /\ write_json_data headers line (running [] [])
     = (Returned tt,
        running []
          (lit "{" ++ [dq] ++ lit "name" ++ [dq] ++ lit ": " ++ [dq]
           ++ lit "Bob" ++ [dq] ++ lit ", " ++ [dq] ++ lit "age" ++ [dq]
           ++ lit ": " ++ [dq] ++ lit "25" ++ [dq] ++ lit "}, ")).
Proof.
  intros headers line.
  assert (ND : NoDup (firstn (length line) headers)).
  { cbn. repeat constructor; cbn; intuition discriminate. }
  split; [exact ND|].
  destruct (record_of_distinct_headers headers line) as (_ & _ & _ & _ & H).
  rewrite (H ND). reflexivity.
Defined.

End RecordsMore.

(** ** The conversion: further properties *)

Section ConversionMore.

Ltac case_test :=
  match goal with
  | |- context [if ?b then _ else _] => destruct b eqn:?
  end.

(** *** The lines of a text *)

Lemma split_lines_concat (s : str) : concat (split_lines s) = s.
Proof.
  induction s as [|c t IH]; [reflexivity|].
  cbn [split_lines]. destruct (c =? nl)%N.
  - cbn [concat app]. now rewrite IH.
  - destruct (split_lines t) as [|l ls].
    + cbn in IH. subst t. reflexivity.
    + cbn [concat app] in *. now rewrite IH.
Qed.

Lemma is_line_cons (c : char) (l : str) :
  (c =? nl)%N = false -> is_line l = true -> is_line (c :: l) = true.
Proof.
  unfold is_line. intros Hc. cbn [rev].
  destruct (rev l) as [|x r]; [discriminate|].
  cbn [app]. intros H. rewrite forallb_app. apply andb_true_iff.
  split; [exact H | cbn [forallb]; now rewrite Hc].
Qed.

Lemma endswith_cons (c : char) (l : str) (p : char) :
  is_line l = true -> Py.endswith (c :: l) [p] = Py.endswith l [p].
Proof.
  unfold is_line, Py.endswith. cbn [rev].
  destruct (rev l) as [|x r]; [discriminate|]. intros _.
  cbn [app]. now rewrite !startswith_head.
Qed.

Lemma split_lines_ok (s : str) : lines_ok (split_lines s) = true.
Proof.
  induction s as [|c t IH]; [reflexivity|].
  cbn [split_lines]. destruct (c =? nl)%N eqn:E.
  - apply N.eqb_eq in E. subst c.
    change (lines_ok ([nl] :: split_lines t))
      with (is_line [nl]
            && match split_lines t with
               | [] => true
               | _ :: _ => Py.endswith [nl] [nl] && lines_ok (split_lines t)
               end).
    rewrite IH. destruct (split_lines t); reflexivity.
  - destruct (split_lines t) as [|l ls]; [reflexivity|].
    cbn [lines_ok] in *. apply andb_true_iff in IH. destruct IH as [Hl Hr].
    rewrite (@is_line_cons c l E Hl), (@endswith_cons c l nl Hl). exact Hr.
Qed.

Lemma split_lines_length (s : str) : length (split_lines s) <= length s.
Proof.
  rewrite <- (split_lines_concat s) at 2.
  apply concat_length_lines, split_lines_ok.
Qed.

(** The loop with a body that writes [f line]. *)
Lemma for_lines_write (f : str -> str) :
  forall (ls : list str) (budget : nat) (c : str),
    lines_ok ls = true -> length ls < budget ->
    for_source_file_lines budget (fun line => write (f line))
      (running (concat ls) c)
    = (Returned tt, running [] (c ++ concat (map f ls))).
Proof.
  induction ls as [|l rest IH]; intros [|budget] c Hok Hb; try (cbn in Hb; lia).
  - cbn [for_source_file_lines concat map]. rewrite bind_run.
    rewrite (@readline_running [] c [] [] eq_refl). cbn [concat].
    rewrite app_nil_r. reflexivity.
  - destruct (take_line_first _ _ Hok) as [Ht Hne].
    cbn [for_source_file_lines]. rewrite bind_run.
    rewrite (@readline_running _ c _ _ Ht).
    destruct l as [|x l]; [congruence|].
    rewrite bind_run, write_running.
    rewrite IH by (eauto using lines_ok_tail; cbn in Hb; lia).
    cbn [map concat]. rewrite <- !app_assoc. reflexivity.
Qed.

(** X9. The loop over [source_file_lines] runs its body once on every line
    of the text left in the source, in order, blank lines included, and
    ends with the source exhausted; the lines put together are the text,
    each is non-empty and holds a newline at its end only.  With a body
    that writes [f line], the sink receives [f] of each line. *)
Theorem source_file_lines_yields (f : str -> str) (text c : str) :
  (budget <- reads_left ;;
   for_source_file_lines budget (fun line => write (f line)))
    (running text c)
  = (Returned tt, running [] (c ++ concat (map f (split_lines text))))
  /\ concat (split_lines text) = text
  /\ lines_ok (split_lines text) = true.
Proof.
  split; [|split; [apply split_lines_concat | apply split_lines_ok]].
  rewrite bind_run. unfold reads_left at 1.
  cbn [running source_file pending].
  rewrite <- (split_lines_concat text) at 2.
  apply for_lines_write; [apply split_lines_ok|].
  pose proof (split_lines_length text). lia.
Qed.

(** *** Every source text *)




(** *** A converter is used once *)

Lemma convert_closed (self : converter) :
  dst_closed (dest_file self) = true -> convert self = (Raised ValueError, self).
Proof.
  intros H. unfold convert, _convert_data, _write_json_file_header.
  rewrite !bind_run. unfold write. rewrite H. reflexivity.
Qed.

(** X11. After a conversion that returned, a second call of [convert] on
    the same converter raises [ValueError] at its first write and changes
    nothing: the document is not written twice. *)
Theorem convert_single_use (self self' : converter) :
  convert self = (Returned tt, self') ->
  convert self' = (Raised ValueError, self').
Proof.
  intros H. apply convert_closed.
  unfold convert in H. rewrite bind_run in H.
  destruct (_convert_data self) as [[[]|e|] s1]; try discriminate.
  injection H as <-. reflexivity.
Qed.

Lemma convert_single_use_witness :
  let self' := snd (convert (open_files (concat scenario) None)) in
  convert self' = (Raised ValueError, self')
  /\ content (dest_file self') = scenario_document.
Proof.
  intros self'. split; [|reflexivity].
  apply (@convert_single_use (open_files (concat scenario) None) self').
  reflexivity.
Defined.

(** *** What the sink holds *)

Lemma printable_hexdigit (n : N) : printable (Py.hexdigit (n mod 16)) = true.
Proof.
  assert (H : (n mod 16 < 16)%N) by (apply N.mod_upper_bound; discriminate).
  unfold printable, Py.hexdigit. revert H. generalize (n mod 16)%N.
  intros m H.
  destruct (m <? 10)%N eqn:E;
    [apply N.ltb_lt in E | apply N.ltb_ge in E];
    apply andb_true_iff; split; apply N.leb_le; lia.
Qed.

Lemma printable_u_escape (n : N) : forallb printable (Py.u_escape n) = true.
Proof.
  unfold Py.u_escape, Py.hex4. cbn [lit app forallb].
  rewrite !printable_hexdigit. reflexivity.
Qed.

Lemma printable_escape_char (c : char) :
  forallb printable (Py.escape_char c) = true.
Proof.
  unfold Py.escape_char.
  repeat match goal with
         | |- context [if ?b then _ else _] =>
             destruct b eqn:?; [try reflexivity|]
         end.
  - cbn [forallb]. unfold printable.
    match goal with H : ((32 <=? c)%N && _ = true) |- _ => rewrite H end.
    reflexivity.
  - apply printable_u_escape.
  - rewrite forallb_app, !printable_u_escape. reflexivity.
Qed.

Lemma printable_flat_map (s : str) :
  forallb printable (flat_map Py.escape_char s) = true.
Proof.
  induction s as [|c s IH]; [reflexivity|].
  cbn [flat_map]. now rewrite forallb_app, printable_escape_char, IH.
Qed.

Lemma printable_encode (s : str) :
  forallb printable (Py.encode_basestring_ascii s) = true.
Proof.
  unfold Py.encode_basestring_ascii.
  now rewrite !forallb_app, printable_flat_map.
Qed.

Lemma printable_join (sep : str) (parts : list str) :
  forallb printable sep = true ->
  (forall p, In p parts -> forallb printable p = true) ->
  forallb printable (Py.join sep parts) = true.
Proof.
  intros Hs. induction parts as [|p rest IH]; intros H; [reflexivity|].
  destruct rest as [|q rest]; [apply H; now left|].
  rewrite join_cons, !forallb_app, Hs, (H p (or_introl eq_refl)).
  rewrite IH by (intros x I; apply H; now right). reflexivity.
Qed.

Lemma printable_json_dumps (d : Py.dict) :
  forallb printable (Py.json_dumps d) = true.
Proof.
  unfold Py.json_dumps. rewrite !forallb_app, printable_join.
  - reflexivity.
  - reflexivity.
  - intros p I. apply in_map_iff in I. destruct I as (kv & <- & _).
    now rewrite !forallb_app, !printable_encode.
Qed.

Lemma forallb_firstn_skipn (P : char -> bool) (n : nat) (s : str) :
  forallb P s = true ->
  forallb P (firstn n s) = true /\ forallb P (skipn n s) = true.
Proof.
  intros H. rewrite <- (firstn_skipn n s), forallb_app in H.
  now apply andb_true_iff in H.
Qed.

Lemma write_at_length (c : str) (pos : nat) (data : str) :
  length (write_at c pos data) = max (length c) (pos + length data).
Proof.
  unfold write_at.
  rewrite !length_app, length_firstn, repeat_length, length_skipn. lia.
Qed.

Lemma preserves_bind {A B} (P : converter -> Prop) (m : M A) (k : A -> M B) :
  preserves P m -> (forall a, preserves P (k a)) -> preserves P (bind m k).
Proof.
  intros Hm Hk self HP. rewrite bind_run. specialize (Hm self HP).
  destruct (m self) as [[a|e|] s1]; cbn [snd] in *; try exact Hm.
  apply Hk, Hm.
Qed.

Lemma preserves_for (P : converter -> Prop) (body : str -> M unit) :
  preserves P readline -> (forall l, preserves P (body l)) ->
  forall budget, preserves P (for_source_file_lines budget body).
Proof.
  intros Hr Hb. induction budget as [|budget IH]; [intros self H; exact H|].
  cbn [for_source_file_lines]. apply preserves_bind; [exact Hr|].
  intros [|c l]; [intros self H; exact H|].
  apply preserves_bind; [apply Hb | intros _; exact IH].
Qed.

(** A property of the destination file alone is kept by what only reads. *)
Lemma preserves_readline (P : converter -> Prop) :
  (forall self self', dest_file self = dest_file self' -> P self -> P self') ->
  preserves P readline.
Proof.
  intros HP [[p closed] d] H. unfold readline. cbn.
  destruct closed; [exact H|]. destruct (take_line p) as [l r].
  cbn [snd]. eapply HP; [|exact H]. reflexivity.
Qed.

Lemma write_ascii (data : str) :
  forallb printable data = true -> preserves ascii_ok (write data).
Proof.
  intros Hd [s [c pos cap closed]] [Hc Hp]. unfold write.
  cbn [dest_file content position capacity dst_closed source_file] in *.
  destruct closed; [split; assumption|].
  case_test; [|split; assumption].
  split; cbn [snd dest_file content position].
  - unfold write_at. replace (Z.to_nat pos - length c) with 0 by lia.
    cbn [repeat app].
    rewrite !forallb_app, Hd.
    rewrite (proj1 (forallb_firstn_skipn printable (Z.to_nat pos) c Hc)).
    rewrite (proj2 (forallb_firstn_skipn printable
                      (Z.to_nat pos + length data) c Hc)).
    reflexivity.
  - rewrite write_at_length. lia.
Qed.

Lemma footer_ascii : preserves ascii_ok _write_json_file_footer.
Proof.
  intros [s [c pos cap closed]] [Hc Hp]. unfold _write_json_file_footer.
  rewrite bind_run. unfold seek_end at 1.
  cbn [dest_file content position capacity dst_closed source_file] in *.
  destruct closed; [split; assumption|].
  rewrite bind_run. unfold tell at 1.
  cbn [dest_file content position capacity dst_closed source_file].
  rewrite bind_run. unfold seek_set at 1.
  cbn [dest_file content position capacity dst_closed source_file].
  destruct (Z.of_nat (length c) - 2 <? 0)%Z eqn:E.
  - split; cbn; [exact Hc | lia].
  - apply Z.ltb_ge in E. apply write_ascii; [reflexivity|].
    split; cbn; [exact Hc | lia].
Qed.

Lemma ascii_sink_only (self self' : converter) :
  dest_file self = dest_file self' -> ascii_ok self -> ascii_ok self'.
Proof. unfold ascii_ok. now intros ->. Qed.

Lemma convert_ascii_kept : preserves ascii_ok convert.
Proof.
  unfold convert. apply preserves_bind.
  - unfold _convert_data.
    apply preserves_bind; [now apply write_ascii | intros _].
    apply preserves_bind.
    { apply preserves_bind;
        [apply preserves_readline, ascii_sink_only | intros l self H; exact H]. }
    intros headers. apply preserves_bind; [intros self H; exact H|].
    intros budget. apply preserves_bind; [|intros _; apply footer_ascii].
    apply preserves_for; [apply preserves_readline, ascii_sink_only|].
    intros l. unfold write_json_data. apply write_ascii.
    now rewrite forallb_app, printable_json_dumps.
  - intros _ [s [c pos cap closed]] H. exact H.
Qed.

(** X12. Every record is written as printable ASCII, whatever the fields
    hold, and so is everything else: after [convert] on freshly opened
    files, on any device and whatever the outcome, the sink holds printable
    ASCII characters only. *)
Theorem convert_writes_ascii :
  (forall headers line : Line,
     forallb printable (Py.json_dumps (record_of headers line) ++ lit ", ")
     = true)
  /\ (forall text cap,
        forallb printable
          (content (dest_file (snd (convert (open_files text cap)))))
        = true).
Proof.
  split.
  - intros headers line. now rewrite forallb_app, printable_json_dumps.
  - intros text cap. apply (@convert_ascii_kept (open_files text cap)).
    split; [reflexivity | cbn; lia].
Qed.

End ConversionMore.

(** ** Line parsing: an unmatched quote *)

Section StrayQuote.

Lemma split_from_stray (b : str) :
  ~ In dq b ->
  forall (a : str) (odd : bool) (cur : str),
    xorb odd (Nat.odd (count_occ N.eq_dec a dq)) = true ->
    split_from odd cur (a ++ b)
    = removelast (split_from odd cur a)
      ++ [last (split_from odd cur a) [] ++ b].
Proof.
  intros Hb. induction a as [|c a IH]; intros odd cur H.
  - cbn in H. rewrite xorb_false_r in H. subst odd. cbn [app split_from].
    clear -Hb. revert cur. induction b as [|x b IH]; intros cur.
    + cbn. now rewrite !app_nil_r.
    + cbn [split_from]. rewrite andb_false_r.
      destruct (x =? dq)%N eqn:E.
      * apply N.eqb_eq in E. subst x. destruct Hb. now left.
      * rewrite IH by (intros I; apply Hb; now right).
        cbn [rev removelast last app]. now rewrite <- app_assoc.
  - cbn [app split_from]. cbn [count_occ] in H.
    destruct ((c =? comma)%N && negb odd) eqn:E.
    + apply andb_true_iff in E. destruct E as [Ec _].
      apply N.eqb_eq in Ec. subst c.
      destruct (N.eq_dec comma dq) as [D|_]; [discriminate|].
      rewrite (IH odd [] H).
      pose proof (split_from_nonempty a odd []) as P.
      destruct (split_from odd [] a) as [|y ys]; [cbn in P; lia|].
      reflexivity.
    + apply IH. destruct (N.eq_dec c dq) as [->|D].
      * rewrite N.eqb_refl. rewrite Nat.odd_succ, <- Nat.negb_odd in H.
        destruct odd, (Nat.odd (count_occ N.eq_dec a dq)); cbn in *;
          congruence.
      * apply N.eqb_neq in D. rewrite D. exact H.
Qed.

Lemma map_removelast {A B} (f : A -> B) (l : list A) :
  removelast (map f l) = map f (removelast l).
Proof.
  induction l as [|x l IH]; [reflexivity|].
  destruct l as [|y l]; [reflexivity|].
  cbn [map removelast] in *. now rewrite IH.
Qed.

(** X15. After a double quote that is not matched, nothing splits the line
    any more: when the line so far holds an odd number of double quotes,
    text without double quotes put after it, commas included, adds no
    field and changes none but the last. *)
Theorem parse_line_stray_quote (a b : str) :
  Nat.odd (count_occ N.eq_dec a dq) = true ->
  ~ In dq b ->
  length (parse_line (a ++ b)) = length (parse_line a)
  /\ removelast (parse_line (a ++ b)) = removelast (parse_line a).
Proof.
  intros Ha Hb. rewrite !parse_line_machine.
  rewrite (@split_from_stray b Hb a false []) by (rewrite Ha; reflexivity).
  pose proof (split_from_nonempty a false []) as P.
  destruct (split_from false [] a) as [|y ys] using rev_ind;
    [cbn in P; lia|]. clear IHys.
  rewrite removelast_last, last_last, !map_app, !length_app.
  cbn [map length]. now rewrite !removelast_last.
Qed.

Lemma parse_line_stray_quote_witness :
  let a := lit "x," ++ [dq] ++ lit "y" in
  let b := lit ",z,w" in
  parse_line a = [lit "x"; [dq] ++ lit "y"]
  /\ length (parse_line (a ++ b)) = 2
  /\ removelast (parse_line (a ++ b)) = [lit "x"].
Proof.
  intros a b. split; [reflexivity|].
  destruct (@parse_line_stray_quote a b) as [L R].
  - reflexivity.
  - cbn. intuition discriminate.
  - rewrite L, R. split; reflexivity.
Defined.

End StrayQuote.
